(** * hades: environment loading, configuration, connectivity check,
      container control and the test runner

    A shallow embedding of the Python sources

      - [postgres/postgres-conn-test.py]              (module [ConnScript])
      - [test/test_cases/test_database_connection.py] (module [DbTest])
      - [test/test_cases/test_container_up.py]        (module [ContainerUp])
      - [test/test_cases/test_container_down.py]      (module [ContainerDown])
      - [test/exec-tests.py]                          (module [Runner])

    Python [str] values are Rocq strings whose characters are code points
    below 256.  [os.environ] is a finite map from strings to strings.
    Everything outside the interpreter (the [.env] file, the compose file,
    subprocesses, the database server, the test modules found on disk) is an
    explicit parameter of the functions that touch it, and what a function
    does to the outside is recorded in a chronological log of events. *)

From Stdlib Require Import ZArith Ascii String.
From stdpp Require Import base option gmap strings list sorting pretty.

Local Open Scope string_scope.
Local Open Scope list_scope.

(** ** Python string primitives *)

Module PyStr.

(** The double quote character, as a one-character string. *)
Definition dquote : string := String "034"%char EmptyString.
Definition squote : string := "'".

(** [str.isspace] on one character (code points below 256): TAB..CR,
    FS..US, SPACE, NEL and NBSP. *)
Definition isspace (c : ascii) : bool :=
  let n := N_of_ascii c in
  ((9 <=? n) && (n <=? 13) || (28 <=? n) && (n <=? 32)
   || (n =? 133) || (n =? 160))%N.

Fixpoint lstrip (s : string) : string :=
  match s with
  | EmptyString => EmptyString
  | String c s' => if isspace c then lstrip s' else s
  end.

Fixpoint rstrip (s : string) : string :=
  match s with
  | EmptyString => EmptyString
  | String c s' =>
      match rstrip s' with
      | EmptyString => if isspace c then EmptyString else String c EmptyString
      | r => String c r
      end
  end.

(** [s.strip()] *)
Definition strip (s : string) : string := rstrip (lstrip s).

(** [s.startswith(p)] *)
Definition startswith (p s : string) : bool := String.prefix p s.

(** [s.endswith(p)]: [p] is [s] or the end of the rest of [s]. *)
Fixpoint endswith (p s : string) : bool :=
  String.eqb s p ||
  match s with
  | EmptyString => false
  | String _ s' => endswith p s'
  end.

(** [not s]: the empty string is the only falsy string. *)
Definition is_empty (s : string) : bool :=
  match s with EmptyString => true | _ => false end.

(** [c in s] for a one-character pattern. *)
Fixpoint contains (c : ascii) (s : string) : bool :=
  match s with
  | EmptyString => false
  | String a s' => Ascii.eqb a c || contains c s'
  end.

(** [s.split(c, 1)]: one element when [c] does not occur, otherwise the
    text before and the text after the first occurrence. *)
Fixpoint split1 (c : ascii) (s : string) : list string :=
  match s with
  | EmptyString => [EmptyString]
  | String a s' =>
      if Ascii.eqb a c then [EmptyString; s']
      else match split1 c s' with
           | k :: rest => String a k :: rest
           | [] => []
           end
  end.

Fixpoint drop_last (s : string) : string :=
  match s with
  | EmptyString => EmptyString
  | String c s' =>
      match s' with
      | EmptyString => EmptyString
      | _ => String c (drop_last s')
      end
  end.

(** [s[1:-1]]: the string without its first and its last character;
    empty for the lengths 0, 1 and 2. *)
Definition slice_1_m1 (s : string) : string :=
  match s with
  | EmptyString => EmptyString
  | String _ s' => drop_last s'
  end.

(** [s.replace(p, "")] for the five-character pattern [p = "test_"]:
    occurrences are found left to right and do not overlap.  [skip] counts
    the characters of the current occurrence still to be dropped. *)
Fixpoint remove_test_go (skip : nat) (s : string) : string :=
  match s with
  | EmptyString => EmptyString
  | String c s' =>
      match skip with
      | S k => remove_test_go k s'
      | O => if String.prefix "test_" s then remove_test_go 4 s'
             else String c (remove_test_go 0 s')
      end
  end.
Definition remove_test (s : string) : string := remove_test_go 0 s.

(** [p in s] for a pattern of any length. *)
Fixpoint substr_in (p s : string) : bool :=
  String.prefix p s ||
  match s with
  | EmptyString => false
  | String _ s' => substr_in p s'
  end.

(** [s.split()]: the maximal runs of characters that are not whitespace.
    [cur] is the run being read, last character first. *)
Fixpoint split_ws_go (cur : string) (s : string) : list string :=
  match s with
  | EmptyString => if is_empty cur then [] else [String.rev cur]
  | String a s' =>
      if isspace a
      then (if is_empty cur then [] else [String.rev cur]) ++ split_ws_go "" s'
      else split_ws_go (String a cur) s'
  end.
Definition split_ws (s : string) : list string := split_ws_go "" s.

(** *** [int(s)] on a string, base 10 (Python 3.12) *)

Definition digit_value (c : ascii) : option Z :=
  let n := N_of_ascii c in
  if ((48 <=? n) && (n <=? 57))%N then Some (Z.of_N n - 48)%Z else None.

(** The whitespace [int] skips at both ends of the literal: TAB..CR and
    SPACE, and of the code points from 128 on those that are whitespace
    for [str] (NEL and NBSP).  FS..US are whitespace for [str.strip] and
    not for [int]. *)
Definition int_space (c : ascii) : bool :=
  let n := N_of_ascii c in
  ((9 <=? n) && (n <=? 13) || (n =? 32) || (n =? 133) || (n =? 160))%N.

Fixpoint skip_int_space (s : string) : string :=
  match s with
  | EmptyString => EmptyString
  | String c s' => if int_space c then skip_int_space s' else s
  end.

(** State of the scan over the digits: nothing read yet, a digit was
    read last, an underscore was read last. *)
Inductive scan_prev := AtStart | AfterDigit | AfterUnderscore.

(** The run of digits with single underscores between them at the start
    of [s]: its value, the number of its digit characters and the text
    after it.  The run is not empty and neither starts nor ends with an
    underscore. *)
Fixpoint scan_digits (prev : scan_prev) (acc : Z) (count : Z) (s : string)
  : option (Z * Z * string) :=
  match s with
  | EmptyString =>
      match prev with AfterDigit => Some (acc, count, s) | _ => None end
  | String c s' =>
      if Ascii.eqb c "_" then
        match prev with
        | AfterDigit => scan_digits AfterUnderscore acc count s'
        | _ => None
        end
      else match digit_value c with
           | Some d => scan_digits AfterDigit (10 * acc + d)%Z (count + 1)%Z s'
           | None =>
               match prev with AfterDigit => Some (acc, count, s) | _ => None end
           end
  end.

(** The interpreter's default limit on the number of digits of a decimal
    literal converted by [int]. *)
Definition int_max_str_digits : Z := 4300.

(** What [int(s)] makes of a string: its value, or one of the two
    [ValueError]s, for a text that is not a literal and for a literal
    with more digits than the limit. *)
Inductive int_outcome :=
| IntValue (n : Z)
| IntInvalid
| IntTooLong (digits : Z).

(** [int(s)]: whitespace, one sign, the digits, whitespace.  The text is
    first checked to be a literal, and then its digits are counted
    against the limit: the order of Python 3.12, which the sources ask
    for (Python 3.11 counts the digits before it looks at what follows
    them).  The interpreter reads the literal as a C string, up to the
    first NUL: the digits before a NUL are counted against the limit, and
    a string that goes on after a NUL is not a literal. *)
Definition int_parse (s : string) : int_outcome :=
  let t := skip_int_space s in
  let '(negative, body) :=
    match t with
    | String "-" r => (true, r)
    | String "+" r => (false, r)
    | _ => (false, t)
    end in
  match scan_digits AtStart 0 0 body with
  | Some (v, count, rest) =>
      match skip_int_space rest with
      | EmptyString =>
          if (int_max_str_digits <? count)%Z then IntTooLong count
          else IntValue (if negative then (- v)%Z else v)
      | String "000" _ =>
          if (int_max_str_digits <? count)%Z then IntTooLong count
          else IntInvalid
      | _ => IntInvalid
      end
  | None => IntInvalid
  end.

(** [int(s)] where [None] stands for [ValueError]. *)
Definition py_int (s : string) : option Z :=
  match int_parse s with
  | IntValue n => Some n
  | _ => None
  end.

(** *** [repr(s)] of a string *)

Definition backslash : ascii := "092"%char.

Definition hex_char (n : N) : ascii :=
  ascii_of_N (if (n <? 10)%N then 48 + n else 87 + n).

(** A backslash, [x] and the two hexadecimal digits of the code point. *)
Definition hex_escape (c : ascii) : string :=
  let n := N_of_ascii c in
  String backslash
    (String "x" (String (hex_char (n / 16)) (String (hex_char (n mod 16)) ""))).

(** [str.isprintable] on one character (code points below 256). *)
Definition printable (c : ascii) : bool :=
  let n := N_of_ascii c in
  ((32 <=? n) && (n <? 127) || (161 <=? n) && negb (n =? 173))%N.

Definition repr_char (quote c : ascii) : string :=
  if Ascii.eqb c quote || Ascii.eqb c backslash
  then String backslash (String c "")
  else if Ascii.eqb c "009" then String backslash "t"
  else if Ascii.eqb c "010" then String backslash "n"
  else if Ascii.eqb c "013" then String backslash "r"
  else if printable c then String c ""
  else hex_escape c.

Fixpoint repr_body (quote : ascii) (s : string) : string :=
  match s with
  | EmptyString => EmptyString
  | String c s' => repr_char quote c +:+ repr_body quote s'
  end.

(** [repr(s)]: between single quotes, or between double quotes when the
    string has a single quote and no double quote. *)
Definition repr (s : string) : string :=
  let quote :=
    if contains "'" s && negb (contains "034" s) then "034"%char
    else "'"%char in
  String quote (repr_body quote s +:+ String quote "").

End PyStr.

Import PyStr.

(** ** Exceptions *)

(** The classes of exceptions: those the sources name in an [except]
    clause or that the model raises itself, one class for every other
    [Exception], and the classes outside [Exception]: [SystemExit] with
    the integer status [sys.exit] was called with, [KeyboardInterrupt],
    and one class for every other. *)
Inductive exn_class :=
| PostgresError       (* asyncpg.PostgresError and its subclasses *)
| ValueError
| TypeError
| TimeoutExpired      (* subprocess.TimeoutExpired *)
| CalledProcessError  (* subprocess.CalledProcessError *)
| FileNotFoundError
| PermissionError
| OtherException
| SystemExit (status : Z)
| KeyboardInterrupt
| OtherBaseException.

Global Instance exn_class_eq_dec : EqDecision exn_class.
Proof. solve_decision. Defined.

(** An exception: its class and the text [str(exc)] gives. *)
Record exn := Exn { exn_cls : exn_class; exn_text : string }.

(** [isinstance(e, Exception)]: what [except Exception] catches. *)
Definition is_exception (e : exn) : bool :=
  match exn_cls e with
  | SystemExit _ | KeyboardInterrupt | OtherBaseException => false
  | _ => true
  end.

Inductive result (A : Type) :=
| Ret (a : A)
| Raise (e : exn).
Arguments Ret {A} a.
Arguments Raise {A} e.

(** ** The process environment and the [.env] loader

    [load_env_file] and [get_db_config] occur twice in the sources
    ([postgres-conn-test.py] and [test_database_connection.py]); the two
    copies differ only in how the default path of the [.env] file is
    computed, which the model takes as the file found there. *)

Module Env.

(** What the body of the loop of [load_env_file] makes of the
    environment for one line of the file, when [os.environ] accepts the
    assignment (see [run_line] for the loop body with the exception of
    the assignment). *)
Definition load_line (environ : gmap string string) (line : string)
  : gmap string string :=
  let line := strip line in
  if is_empty line || startswith "#" line then environ
  else if negb (contains "=" line) then environ
  else
    match split1 "=" line with
    | [key; value] =>
        let key := strip key in
        let value := strip value in
        let value :=
          if startswith dquote value && endswith dquote value
             || startswith squote value && endswith squote value
          then slice_1_m1 value else value in
        if negb (is_empty key) && bool_decide (environ !! key = None)
        then <[key := value]> environ
        else environ
    | _ => environ (* not reached: the line contains the separator *)
    end.

(** The environment [load_env_file] builds when no assignment is
    refused: [file] is [None] when the path does not exist, and otherwise
    the lines the text file yields when iterated. *)
Definition load_env_file (file : option (list string))
    (environ : gmap string string) : gmap string string :=
  match file with
  | None => environ
  | Some lines => foldl load_line environ lines
  end.

(** [os.environ[key] = value], for a key that is not empty and has no
    [=] in it (the loader assigns no other): the assignment is refused
    with [ValueError] when the key or the value holds a NUL. *)
Definition assign (environ : gmap string string) (key value : string)
  : result (gmap string string) :=
  if contains "000" key || contains "000" value
  then Raise (Exn ValueError "embedded null byte")
  else Ret (<[key := value]> environ).

(** The body of the loop of [load_env_file], for one line of the file:
    the environment after the line, or the exception of the assignment. *)
Definition run_line (environ : gmap string string) (line : string)
  : result (gmap string string) :=
  let line := strip line in
  if is_empty line || startswith "#" line then Ret environ
  else if negb (contains "=" line) then Ret environ
  else
    match split1 "=" line with
    | [key; value] =>
        let key := strip key in
        let value := strip value in
        let value :=
          if startswith dquote value && endswith dquote value
             || startswith squote value && endswith squote value
          then slice_1_m1 value else value in
        if negb (is_empty key) && bool_decide (environ !! key = None)
        then assign environ key value
        else Ret environ
    | _ => Ret environ (* not reached: the line contains the separator *)
    end.

(** The loop of [load_env_file]: the environment when the loop is left,
    and the exception that ended it, if one did. *)
Fixpoint run_lines (environ : gmap string string) (lines : list string)
  : gmap string string * option exn :=
  match lines with
  | [] => (environ, None)
  | line :: rest =>
      match run_line environ line with
      | Ret environ' => run_lines environ' rest
      | Raise e => (environ, Some e)
      end
  end.

(** [load_env_file] with the exception it may end with. *)
Definition run_load_env_file (file : option (list string))
    (environ : gmap string string) : gmap string string * option exn :=
  match file with
  | None => (environ, None)
  | Some lines => run_lines environ lines
  end.

(** [os.getenv(key, default)] *)
Definition getenv (environ : gmap string string) (key dflt : string) : string :=
  default dflt (environ !! key).

End Env.

(** ** Effects and the outside world *)

(** Connection Config: the dictionary [get_db_config] returns, with its
    five keys. *)
Record Config := {
  host : string;
  port : Z;
  user : string;
  password : string;
  database : string
}.

(** Values a scalar query can come back with. *)
Inductive pyval :=
| PyInt (n : Z)
| PyStr (s : string)
| PyNone.

(** [v == 1] *)
Definition py_eq_1 (v : pyval) : bool :=
  match v with PyInt 1 => true | _ => false end.

Inductive stream := Stdout | Stderr.

(** What the program does to the outside, in the order it does it. *)
Inductive event :=
| EvSubprocess (argv : list string) (timeout : option Z) (check : bool)
| EvSleep (seconds : Z)
| EvConnect (cfg : Config)
| EvFetchval (query : string)
| EvClose
| EvPrint (out : stream) (text : string)
| EvSummaryItem (passed : bool) (name message : string)
    (* one line of the runner's summary: a check mark or a cross, the
       name of the test and its message *)
| EvTraceback (e : exn)
    (* the interpreter's report of an uncaught exception on stderr *).

(** A finished subprocess, or the exception [subprocess.run] raised. *)
Record completed := {
  returncode : Z;
  stdout : string;
  stderr : string
}.

(** The outside world.  Every answer may depend on what happened before
    (the log so far).  What [subprocess.run] and the database driver
    raise is an instance of [Exception]. *)
Record World := {
  env_file : option (list string);
  compose_file_exists : bool;
  compose_file : string;
  process_outcome : list event → list string → result completed;
  connect_outcome : list event → Config → option exn;
  fetchval_outcome : list event → string → result pyval;
  close_outcome : list event → option exn;
  process_faults : ∀ h argv e,
    process_outcome h argv = Raise e → is_exception e = true;
  connect_faults : ∀ h config e,
    connect_outcome h config = Some e → is_exception e = true;
  fetchval_faults : ∀ h query e,
    fetchval_outcome h query = Raise e → is_exception e = true;
  close_faults : ∀ h e,
    close_outcome h = Some e → is_exception e = true
}.

(** The state a function runs in: [os.environ] and the log. *)
Record state := {
  environ : gmap string string;
  log : list event
}.

Definition M (A : Type) : Type := state → result A * state.

Definition ret {A} (a : A) : M A := fun st => (Ret a, st).
Definition raise {A} (e : exn) : M A := fun st => (Raise e, st).
Definition bind {A B} (m : M A) (k : A → M B) : M B :=
  fun st =>
    match m st with
    | (Ret a, st') => k a st'
    | (Raise e, st') => (Raise e, st')
    end.

(** [try: m  except Exception as e: h e]: an exception that is not an
    instance of [Exception] passes through. *)
Definition try_except {A} (m : M A) (h : exn → M A) : M A :=
  fun st =>
    match m st with
    | (Ret a, st') => (Ret a, st')
    | (Raise e, st') => if is_exception e then h e st' else (Raise e, st')
    end.

(** [try: m  finally: f]: the finaliser runs on every way out of [m]; an
    exception of the finaliser replaces the outcome of [m]. *)
Definition try_finally {A} (m : M A) (f : M unit) : M A :=
  fun st =>
    let '(r, st') := m st in
    match f st' with
    | (Ret _, st'') => (r, st'')
    | (Raise e, st'') => (Raise e, st'')
    end.

Definition emit (ev : event) : M unit :=
  fun st => (Ret tt, {| environ := environ st; log := log st ++ [ev] |}).

Definition get_environ : M (gmap string string) :=
  fun st => (Ret (environ st), st).

Definition set_environ (e : gmap string string) : M unit :=
  fun st => (Ret tt, {| environ := e; log := log st |}).

Definition lift_result {A} (r : result A) : M A := fun st => (r, st).

Declare Scope py_scope.
Delimit Scope py_scope with py.
Notation "'let*' x ':=' m 'in' k" := (bind m (fun x => k))
  (at level 10, x name, m at level 100, k at level 200) : py_scope.
Notation "m >> k" := (bind m (fun _ => k))
  (at level 100, k at level 200, right associativity) : py_scope.
Local Open Scope py_scope.

Definition print (out : stream) (text : string) : M unit :=
  emit (EvPrint out text).

Definition sleep (seconds : Z) : M unit := emit (EvSleep seconds).

(** ** Config Resolver *)

Module Resolver.

(** The [ValueError] of [int] on a string it does not convert: for a
    literal with too many digits the text names the limit and the number
    of digits; otherwise it quotes the string, as the first 200
    characters of its [repr]. *)
Definition int_error (s : string) : exn :=
  match int_parse s with
  | IntTooLong digits =>
      Exn ValueError
        ("Exceeds the limit (" +:+ pretty int_max_str_digits
         +:+ " digits) for integer string conversion: value has "
         +:+ pretty digits
         +:+ " digits; use sys.set_int_max_str_digits() to increase the limit")
  | _ =>
      Exn ValueError
        ("invalid literal for int() with base 10: "
         +:+ substring 0 200 (repr s))
  end.

(** [get_db_config] (the same text in both files). *)
Definition get_db_config (environ : gmap string string) : result Config :=
  let password := Env.getenv environ "POSTGRES_PASSWORD" "" in
  let password :=
    if startswith dquote password && endswith dquote password
    then slice_1_m1 password
    else if startswith squote password && endswith squote password
    then slice_1_m1 password
    else password in
  let host := Env.getenv environ "POSTGRES_HOST" "localhost" in
  let port_text := Env.getenv environ "POSTGRES_PORT" "5432" in
  match py_int port_text with
  | None => Raise (int_error port_text)
  | Some port =>
      Ret {| host := host;
             port := port;
             user := Env.getenv environ "POSTGRES_USER" "hades";
             password := password;
             database := Env.getenv environ "POSTGRES_DB" "hades_db" |}
  end.

End Resolver.

(** ** The database driver and [subprocess.run], as seen by the program *)

Section Outside.
Context (w : World).

Definition log_then {A} (ev : event) (r : result A) : M A :=
  fun st => (r, {| environ := environ st; log := log st ++ [ev] |}).

Definition option_raise (o : option exn) : result unit :=
  match o with
  | None => Ret tt
  | Some e => Raise e
  end.

(** [await asyncpg.connect], called with the five fields of the config
    as keyword arguments. *)
Definition connect (config : Config) : M unit :=
  fun st =>
    log_then (EvConnect config)
      (option_raise (connect_outcome w (log st) config)) st.

(** [await conn.fetchval(query)] *)
Definition fetchval (query : string) : M pyval :=
  fun st => log_then (EvFetchval query) (fetchval_outcome w (log st) query) st.

(** [await conn.close()] *)
Definition close : M unit :=
  fun st => log_then EvClose (option_raise (close_outcome w (log st))) st.

(** [subprocess.run(argv, capture_output=True, timeout=..., check=...)]:
    with [check], a nonzero return code raises [CalledProcessError] (the
    text of that exception is not the interpreter's, which names the
    command and the status; the sources never read it). *)
Definition subprocess_run (argv : list string) (timeout : option Z)
    (check : bool) : M completed :=
  fun st =>
    log_then (EvSubprocess argv timeout check)
      match process_outcome w (log st) argv with
      | Ret c =>
          if check && negb (returncode c =? 0)%Z
          then Raise (Exn CalledProcessError
                        "Command returned non-zero exit status")
          else Ret c
      | Raise e => Raise e
      end st.

(** [load_env_file()] on the process environment: the keys assigned
    before an assignment was refused stay set. *)
Definition load_env_file : M unit :=
  let* e := get_environ in
  let '(e', fault) := Env.run_load_env_file (env_file w) e in
  set_environ e' >>
  match fault with
  | None => ret tt
  | Some exc => raise exc
  end.

End Outside.

(** [get_db_config()] on the process environment. *)
Definition get_db_config : M Config :=
  let* e := get_environ in
  lift_result (Resolver.get_db_config e).

(** The text [user@host:port/database] of the success messages. *)
Definition describe (config : Config) : string :=
  user config +:+ "@" +:+ host config +:+ ":" +:+ pretty (port config)
  +:+ "/" +:+ database config.

(** The exit status of the process after [sys.exit(n)]: the status is
    taken as a C [long] (and is -1 when it does not fit), of which the
    parent sees the low eight bits. *)
Definition exit_status (n : Z) : Z :=
  if ((- 2 ^ 63 <=? n) && (n <? 2 ^ 63))%Z then (n mod 256)%Z else 255%Z.

(** Running a function as a script: the status it returns is what
    [sys.exit] is called with.  An exception nobody caught is reported on
    standard error and the exit status is 1; [SystemExit] ends the
    process with its own status and without a report;
    [KeyboardInterrupt] is reported and the process ends by the interrupt
    signal, which a shell shows as status 130. *)
Definition run_script (m : M Z) (st : state) : Z * state :=
  match m st with
  | (Ret status, st') => (status, st')
  | (Raise e, st') =>
      let reported :=
        {| environ := environ st'; log := log st' ++ [EvTraceback e] |} in
      match exn_cls e with
      | SystemExit n => (exit_status n, st')
      | KeyboardInterrupt => (130%Z, reported)
      | _ => (1%Z, reported)
      end
  end.

(** ** [postgres/postgres-conn-test.py] *)

Module ConnScript.
Section WithWorld.
Context (w : World).

(** [test_connection]: returns a boolean and prints what happened. *)
Definition test_connection (config : Config) : M bool :=
  try_except
    (connect w config >>
     try_finally
       (let* _ := fetchval w "SELECT 1;" in ret tt)
       (close w) >>
     print Stdout ("Connection successful to " +:+ describe config) >>
     ret true)
    (fun exc =>
       if decide (exn_cls exc = PostgresError)
       then print Stdout ("Connection failed: " +:+ exn_text exc) >>
            ret false
       else print Stdout
              ("Unexpected error during connection test: " +:+ exn_text exc) >>
            ret false).

(** [main]; [sys.exit(n)] is the returned status [n]. *)
Definition main : M Z :=
  load_env_file w >>
  let* config := get_db_config in
  if is_empty (password config) then
    print Stderr
      "Error: POSTGRES_PASSWORD environment variable is not set or is empty" >>
    print Stderr
      "Make sure .env file exists or set POSTGRES_PASSWORD environment variable" >>
    ret 1%Z
  else if is_empty (user config) then
    print Stderr "Error: POSTGRES_USER environment variable is not set" >>
    ret 1%Z
  else
    let* ok := test_connection config in
    ret (if ok then 0%Z else 1%Z).

(** The file run as a program. *)
Definition script : state → Z * state := run_script main.

End WithWorld.
End ConnScript.

(** ** [test/test_cases/test_database_connection.py] *)

Module DbTest.
Section WithWorld.
Context (w : World).

(** [test_connection]: returns the pair (success, message). *)
Definition test_connection (config : Config) : M (bool * string) :=
  try_except
    (connect w config >>
     try_finally
       (let* result := fetchval w "SELECT 1;" in
        if py_eq_1 result
        then ret (true, "Successfully connected to " +:+ describe config)
        else ret (false,
                  "Connection succeeded but query returned unexpected result"))
       (close w))
    (fun exc =>
       if decide (exn_cls exc = PostgresError)
       then ret (false, "Database connection failed: " +:+ exn_text exc)
       else ret (false,
                 "Unexpected error during connection test: " +:+ exn_text exc)).

(** The loop of [ensure_container_running] that looks for the compose
    command: the first form whose [version] call completes with status 0. *)
Fixpoint detect_compose (cmds : list string) : M (option string) :=
  match cmds with
  | [] => ret None
  | cmd :: rest =>
      fun st =>
        match subprocess_run w (split_ws cmd ++ ["version"]) (Some 5%Z) true st
        with
        | (Ret _, st') => (Ret (Some cmd), st')
        | (Raise e, st') =>
            if bool_decide (exn_cls e = CalledProcessError)
               || bool_decide (exn_cls e = TimeoutExpired)
               || bool_decide (exn_cls e = FileNotFoundError)
            then detect_compose rest st'
            else (Raise e, st')
        end
  end.

Definition ensure_container_running : M (bool * string) :=
  if negb (compose_file_exists w) then
    ret (false, "docker-compose.yml not found at " +:+ compose_file w)
  else
    let* compose_cmd := detect_compose ["docker compose"; "docker-compose"] in
    match compose_cmd with
    | None => ret (false, "Docker Compose not available")
    | Some compose_cmd =>
        try_except
          (let* result :=
             subprocess_run w
               (split_ws compose_cmd ++
                ["-f"; compose_file w; "ps"; "--status"; "running"; "db"])
               (Some 10%Z) false in
           if substr_in "db" (stdout result) then
             ret (true, "Container is already running")
           else
             let* result :=
               subprocess_run w
                 (split_ws compose_cmd ++
                  ["-f"; compose_file w; "up"; "-d"; "db"])
                 (Some 60%Z) false in
             if negb (returncode result =? 0)%Z then
               ret (false, "Failed to start container: " +:+ stderr result)
             else
               sleep 5 >>
               ret (true, "Container started successfully"))
          (fun e =>
             if decide (exn_cls e = TimeoutExpired)
             then ret (false, "Command timed out")
             else ret (false,
                       "Error ensuring container is running: " +:+ exn_text e))
    end.

Definition test_database_connection : M (bool * string) :=
  let* container := ensure_container_running in
  let '(container_ok, container_msg) := container in
  if negb container_ok then
    ret (false, "Cannot test connection: " +:+ container_msg)
  else
    load_env_file w >>
    let* config := get_db_config in
    if is_empty (password config) then
      ret (false,
           "POSTGRES_PASSWORD environment variable is not set or is empty")
    else if is_empty (user config) then
      ret (false, "POSTGRES_USER environment variable is not set")
    else
      test_connection config.

(** The file run as a program. *)
Definition script : state → Z * state :=
  run_script
    (let* r := test_database_connection in
     let '(success, message) := r in
     print Stdout
       ((if success then "PASS" else "FAIL") +:+ ": " +:+ message) >>
     ret (if success then 0%Z else 1%Z)).

End WithWorld.
End DbTest.

(** ** [test/test_cases/test_container_up.py] and
       [test/test_cases/test_container_down.py]

    [run_command] and [get_compose_command] have the same text in both
    files. *)

Module Compose.
Section WithWorld.
Context (w : World).

Definition run_command (cmd : list string) : M (Z * string * string) :=
  try_except
    (let* result := subprocess_run w cmd (Some 60%Z) false in
     ret (returncode result, stdout result, stderr result))
    (fun e =>
       if decide (exn_cls e = TimeoutExpired)
       then ret (1%Z, "", "Command timed out")
       else ret (1%Z, "", exn_text e)).

Definition get_compose_command : M (option string) :=
  let* r := run_command ["docker"; "compose"; "version"] in
  if (r.1.1 =? 0)%Z then ret (Some "docker compose")
  else
    let* r := run_command ["docker-compose"; "version"] in
    if (r.1.1 =? 0)%Z then ret (Some "docker-compose")
    else ret None.

End WithWorld.
End Compose.

Module ContainerUp.
Section WithWorld.
Context (w : World).

Definition test_container_up : M (bool * string) :=
  if negb (compose_file_exists w) then
    ret (false, "docker-compose.yml not found at " +:+ compose_file w)
  else
    let* compose_cmd := Compose.get_compose_command w in
    match compose_cmd with
    | None => ret (false, "Docker Compose not available")
    | Some compose_cmd =>
        Compose.run_command w
          (split_ws compose_cmd ++ ["-f"; compose_file w; "stop"; "db"]) >>
        sleep 2 >>
        let* r :=
          Compose.run_command w
            (split_ws compose_cmd ++ ["-f"; compose_file w; "up"; "-d"; "db"]) in
        let '(code, _, err) := r in
        if negb (code =? 0)%Z then
          ret (false, "Failed to start container: " +:+ err)
        else
          sleep 3 >>
          let* r :=
            Compose.run_command w
              (split_ws compose_cmd ++
               ["-f"; compose_file w; "ps"; "--status"; "running"; "db"]) in
          let '(code, out, _) := r in
          if negb (code =? 0)%Z || negb (substr_in "db" out) then
            ret (false, "Container started but not running")
          else
            ret (true, "Container successfully brought up and is running")
    end.

End WithWorld.
End ContainerUp.

Module ContainerDown.
Section WithWorld.
Context (w : World).

Definition test_container_down : M (bool * string) :=
  if negb (compose_file_exists w) then
    ret (false, "docker-compose.yml not found at " +:+ compose_file w)
  else
    let* compose_cmd := Compose.get_compose_command w in
    match compose_cmd with
    | None => ret (false, "Docker Compose not available")
    | Some compose_cmd =>
        Compose.run_command w
          (split_ws compose_cmd ++ ["-f"; compose_file w; "up"; "-d"; "db"]) >>
        sleep 3 >>
        let* r :=
          Compose.run_command w
            (split_ws compose_cmd ++ ["-f"; compose_file w; "stop"; "db"]) in
        let '(code, _, err) := r in
        if negb (code =? 0)%Z then
          ret (false, "Failed to stop container: " +:+ err)
        else
          sleep 2 >>
          let* r :=
            Compose.run_command w
              (split_ws compose_cmd ++
               ["-f"; compose_file w; "ps"; "--status"; "running"; "db"]) in
          let '(_, out, _) := r in
          if substr_in "db" out then
            ret (false, "Container is still running after stop command")
          else
            ret (true, "Container successfully brought down")
    end.

End WithWorld.
End ContainerDown.

(** ** [test/exec-tests.py] *)

Module Runner.

(** *** Paths: [Path.suffix] and [Path.stem] of a file name *)

(** The name cut at its last dot: the text before the dot, and the text
    from the dot on; [None] when the name has no dot. *)
Fixpoint split_last_dot (s : string) : option (string * string) :=
  match s with
  | EmptyString => None
  | String c s' =>
      match split_last_dot s' with
      | Some (before, from_dot) => Some (String c before, from_dot)
      | None => if Ascii.eqb c "." then Some (EmptyString, s) else None
      end
  end.

(** [0 < i < len(name) - 1] for the index [i] of the last dot: the dot is
    neither the first nor the last character. *)
Definition dot_splits (before from_dot : string) : bool :=
  negb (is_empty before) && (1 <? String.length from_dot)%nat.

Definition suffix (name : string) : string :=
  match split_last_dot name with
  | Some (before, from_dot) =>
      if dot_splits before from_dot then from_dot else ""
  | None => ""
  end.

Definition stem (name : string) : string :=
  match split_last_dot name with
  | Some (before, from_dot) =>
      if dot_splits before from_dot then before else name
  | None => name
  end.

(** *** Test modules *)

(** What a test function hands back: a pair that unpacks into
    [success, message], or an object whose unpacking raises. *)
Inductive retval :=
| RetPair (success : bool) (message : string)
| RetOther (unpack_error : exn).

(** An attribute of a loaded module: a callable with the behaviour of
    its call without arguments, or an object that cannot be called. *)
Inductive attr :=
| Callable (body : M retval)
| NotCallable (type_name : string).

Definition callable (a : attr) : bool :=
  match a with Callable _ => true | NotCallable _ => false end.

(** [a()] *)
Definition call (a : attr) : M retval :=
  match a with
  | Callable body => body
  | NotCallable type_name =>
      raise (Exn TypeError ("'" +:+ type_name +:+ "' object is not callable"))
  end.

(** A file of the test directory: its name, whether it is a regular
    file, whether the import machinery gives a spec with a loader for it,
    and what executing it as a module does: the namespace of the module,
    or an exception. *)
Record test_file := {
  file_name : string;
  file_is_file : bool;
  file_has_spec : bool;
  file_exec : M (gmap string attr)
}.

(** [dir(module)]: the names of the module, sorted. *)
Definition dir (module : gmap string attr) : list string :=
  merge_sort String.le (map fst (map_to_list module)).

(** The loop over [dir(module)] of [run_test_case]. *)
Fixpoint first_test_callable (module : gmap string attr)
    (names : list string) : option attr :=
  match names with
  | [] => None
  | attr_name :: rest =>
      match module !! attr_name with
      | Some a =>
          if startswith "test_" attr_name && callable a then Some a
          else first_test_callable module rest
      | None => first_test_callable module rest
      end
  end.

(** The part of [run_test_case] that picks [test_func]: the attribute
    with the derived name when the module has one, otherwise the first
    callable of [dir(module)] whose name starts with [test_]. *)
Definition find_test_func (module : gmap string attr) (test_name : string)
  : option attr :=
  let func_name := "test_" +:+ remove_test test_name in
  match module !! func_name with
  | None => first_test_callable module (dir module)
  | Some test_func => Some test_func
  end.

Section WithDirectory.
(** [str(test_cases_dir)] *)
Context (test_cases_dir : string).

Definition run_test_case (tf : test_file) : M (string * bool * string) :=
  let test_name := stem (file_name tf) in
  try_except
    (if negb (file_has_spec tf) then
       ret (test_name, false,
            "Failed to load test module: " +:+ test_cases_dir +:+ "/"
            +:+ file_name tf)
     else
       let* module := file_exec tf in
       match find_test_func module test_name with
       | None => ret (test_name, false, "No test function found in module")
       | Some test_func =>
           let* r := call test_func in
           match r with
           | RetPair success message => ret (test_name, success, message)
           | RetOther unpack_error => raise unpack_error
           end
       end)
    (fun e => ret (test_name, false, "Test execution error: " +:+ exn_text e)).

End WithDirectory.

(** The order of [sorted] on the paths of one directory (POSIX paths):
    the order of their names, character by character. *)
Definition name_le (a b : test_file) : Prop :=
  String.le (file_name a) (file_name b).

Global Instance name_le_dec : RelDecision name_le.
Proof. intros a b. unfold name_le. apply _. Defined.

(** [discover_test_cases]: [entries] is [None] when the directory does
    not exist, and otherwise what iterating over it yields. *)
Definition discover_test_cases (entries : option (list test_file))
  : list test_file :=
  match entries with
  | None => []
  | Some entries =>
      merge_sort name_le
        (filter (λ file, file_is_file file = true
                         ∧ suffix (file_name file) = ".py"
                         ∧ startswith "test_" (file_name file) = true)
                entries)
  end.

Fixpoint repeat_char (c : ascii) (n : nat) : string :=
  match n with
  | O => EmptyString
  | S n' => String c (repeat_char c n')
  end.

(** ["=" * 70] *)
Definition rule : string := repeat_char "=" 70.

Fixpoint for_each {A} (l : list A) (body : A → M unit) : M unit :=
  match l with
  | [] => ret tt
  | x :: rest => body x >> for_each rest body
  end.

Section Suite.
Context (test_cases_dir : string).

(** The loop of [main] that runs the tests and collects [results]. *)
Fixpoint run_each (test_files : list test_file)
  : M (list (string * bool * string)) :=
  match test_files with
  | [] => ret []
  | tf :: rest =>
      print Stdout ("Running: " +:+ file_name tf +:+ "...") >>
      let* r := run_test_case test_cases_dir tf in
      let '(test_name, success, message) := r in
      print Stdout
        ("  [" +:+ (if success then "PASS" else "FAIL") +:+ "] " +:+ message) >>
      print Stdout "" >>
      let* results := run_each rest in
      ret ((test_name, success, message) :: results)
  end.

Definition count_passed (results : list (string * bool * string)) : nat :=
  length (filter (λ r, r.1.2 = true) results).

Definition main (entries : option (list test_file)) : M Z :=
  print Stdout rule >>
  print Stdout "Running Test Suite" >>
  print Stdout rule >>
  print Stdout "" >>
  let test_files := discover_test_cases entries in
  match test_files with
  | [] =>
      print Stdout "ERROR: No test cases found in test_cases directory" >>
      ret 1%Z
  | _ =>
      print Stdout
        ("Found " +:+ pretty (length test_files) +:+ " test case(s):") >>
      for_each test_files (λ tf, print Stdout ("  - " +:+ file_name tf)) >>
      print Stdout "" >>
      let* results := run_each test_files in
      print Stdout rule >>
      print Stdout "Test Summary" >>
      print Stdout rule >>
      let passed := count_passed results in
      let failed := (length results - passed)%nat in
      for_each results
        (λ r, let '(test_name, success, message) := r in
              emit (EvSummaryItem success test_name message)) >>
      print Stdout "" >>
      print Stdout
        ("Total: " +:+ pretty (length results) +:+ " | Passed: "
         +:+ pretty passed +:+ " | Failed: " +:+ pretty failed) >>
      print Stdout rule >>
      ret (if (failed =? 0)%nat then 0%Z else 1%Z)
  end.

(** The file run as a program: [sys.exit(main())]. *)
Definition script (entries : option (list test_file)) : state → Z * state :=
  run_script (main entries).

End Suite.
End Runner.

(** ** Statements: what the properties below are phrased with *)

(** A quote character, as a one-character string. *)
Definition is_quote (q : string) : Prop := q = dquote ∨ q = squote.

(** The value starts and ends with the same quote character. *)
Definition quoted (v : string) : Prop :=
  ∃ q, is_quote q ∧ startswith q v = true ∧ endswith q v = true.

(** One layer of matching surrounding quotes removed: a value between
    two equal quotes loses them, a value that is one quote character alone
    becomes empty, any other value stays as it is. *)
Inductive strips_to : string → string → Prop :=
| strips_pair q inner :
    is_quote q → strips_to (q +:+ inner +:+ q) inner
| strips_lone q :
    is_quote q → strips_to q ""
| strips_plain v :
    ¬ quoted v → strips_to v v.

(** The exception that reaches the handlers of [test_connection], if
    any: the one of [connect]; otherwise the one of [close], which
    replaces whatever the query did; otherwise the one of the query. *)
Definition db_fault (w : World) (h : list event) (config : Config)
  : option exn :=
  match connect_outcome w h config with
  | Some e => Some e
  | None =>
      let h1 := h ++ [EvConnect config] in
      match close_outcome w (h1 ++ [EvFetchval "SELECT 1;"]) with
      | Some e => Some e
      | None =>
          match fetchval_outcome w h1 "SELECT 1;" with
          | Raise e => Some e
          | Ret _ => None
          end
      end
  end.

(** The exceptions the probe for the compose command in
    [ensure_container_running] catches. *)
Definition probe_catches (e : exn) : Prop :=
  exn_cls e = CalledProcessError ∨ exn_cls e = TimeoutExpired
  ∨ exn_cls e = FileNotFoundError.

(** What the runner prints before it runs the tests it found, and after
    it has their results. *)
Definition announce (found : list Runner.test_file) : list event :=
  [EvPrint Stdout Runner.rule;
   EvPrint Stdout "Running Test Suite";
   EvPrint Stdout Runner.rule;
   EvPrint Stdout "";
   EvPrint Stdout ("Found " +:+ pretty (length found) +:+ " test case(s):")]
  ++ map (λ tf, EvPrint Stdout ("  - " +:+ Runner.file_name tf)) found
  ++ [EvPrint Stdout ""].

Definition summary (results : list (string * bool * string)) : list event :=
  [EvPrint Stdout Runner.rule;
   EvPrint Stdout "Test Summary";
   EvPrint Stdout Runner.rule]
  ++ map (λ r, EvSummaryItem r.1.2 r.1.1 r.2) results
  ++ [EvPrint Stdout "";
      EvPrint Stdout
        ("Total: " +:+ pretty (length results) +:+ " | Passed: "
         +:+ pretty (Runner.count_passed results) +:+ " | Failed: "
         +:+ pretty (length results - Runner.count_passed results)%nat);
      EvPrint Stdout Runner.rule].

(** A Test Result that passed. *)
Definition passed (r : string * bool * string) : Prop := r.1.2 = true.

(** The files discovery keeps. *)
Definition is_test_case (tf : Runner.test_file) : Prop :=
  Runner.file_is_file tf = true
  ∧ Runner.suffix (Runner.file_name tf) = ".py"
  ∧ startswith "test_" (Runner.file_name tf) = true.

Global Instance is_test_case_dec (tf : Runner.test_file) :
  Decision (is_test_case tf).
Proof. unfold is_test_case. apply _. Defined.

(** No NUL character in the text. *)
Definition nul_free (s : string) : Prop := contains "000" s = false.

Global Instance nul_free_dec (s : string) : Decision (nul_free s).
Proof. unfold nul_free. apply _. Defined.

(** The code raises instances of [Exception] only: nothing that an
    [except Exception] lets through. *)
Definition raises_exceptions_only {A} (m : M A) : Prop :=
  ∀ st e st', m st = (Raise e, st') → is_exception e = true.

(** A test file whose code raises instances of [Exception] only, when
    its module is executed, when an attribute of the module is called and
    when what the call returned is unpacked. *)
Definition contained (tf : Runner.test_file) : Prop :=
  raises_exceptions_only (Runner.file_exec tf)
  ∧ ∀ st module st1 name a,
      Runner.file_exec tf st = (Ret module, st1) →
      module !! name = Some a →
      raises_exceptions_only (Runner.call a)
      ∧ ∀ st2 e st3,
          Runner.call a st2 = (Ret (Runner.RetOther e), st3) →
          is_exception e = true.

(** What the runner makes of an exception of the code of a test: a
    failed result with the text of the exception when it is an instance
    of [Exception]; any other exception goes on. *)
Definition caught (name : string) (e : exn) (st : state)
  : result (string * bool * string) * state :=
  if is_exception e
  then (Ret (name, false, "Test execution error: " +:+ exn_text e), st)
  else (Raise e, st).

(** Shows that the faults a [World] is written with are instances of
    [Exception]. *)
Ltac exceptions_only :=
  intros; simpl in *; repeat case_match; simplify_eq/=; reflexivity.

(** Concrete inputs used below. *)
Module Examples.

Definition cfg : Config :=
  {| host := "localhost"; port := 5432; user := "hades";
     password := "secret"; database := "hades_db" |}.

Definition healthy : completed :=
  {| returncode := 0; stdout := "NAME  SERVICE  STATUS
hades-db-1  db  running"; stderr := "" |}.

(** Everything works; the scalar query comes back with [answer]. *)
Definition world (answer : pyval) : World :=
  {| env_file := None;
     compose_file_exists := true;
     compose_file := "/srv/hades/docker-compose.yml";
     process_outcome := λ _ _, Ret healthy;
     connect_outcome := λ _ _, None;
     fetchval_outcome := λ _ _, Ret answer;
     close_outcome := λ _, None;
     process_faults := ltac:(exceptions_only);
     connect_faults := ltac:(exceptions_only);
     fetchval_faults := ltac:(exceptions_only);
     close_faults := ltac:(exceptions_only) |}.

(** [docker] is found but may not be executed. *)
Definition world_no_permission : World :=
  {| env_file := None;
     compose_file_exists := true;
     compose_file := "/srv/hades/docker-compose.yml";
     process_outcome := λ _ _,
       Raise (Exn PermissionError "[Errno 13] Permission denied: 'docker'");
     connect_outcome := λ _ _, None;
     fetchval_outcome := λ _ _, Ret (PyInt 1);
     close_outcome := λ _, None;
     process_faults := ltac:(exceptions_only);
     connect_faults := ltac:(exceptions_only);
     fetchval_faults := ltac:(exceptions_only);
     close_faults := ltac:(exceptions_only) |}.

Definition start (environ : gmap string string) : state :=
  {| environ := environ; log := [] |}.

(** A [.env] file whose second line has a NUL in its value. *)
Definition nul_file : list string :=
  ["A=1"; "B=x" +:+ String "000" "y"; "C=3"].

Definition world_nul_file : World :=
  {| env_file := Some nul_file;
     compose_file_exists := true;
     compose_file := "/srv/hades/docker-compose.yml";
     process_outcome := λ _ _, Ret healthy;
     connect_outcome := λ _ _, None;
     fetchval_outcome := λ _ _, Ret (PyInt 1);
     close_outcome := λ _, None;
     process_faults := ltac:(exceptions_only);
     connect_faults := ltac:(exceptions_only);
     fetchval_faults := ltac:(exceptions_only);
     close_faults := ltac:(exceptions_only) |}.

(** A password is set, and the port is not a number. *)
Definition bad_port_env : gmap string string :=
  {[ "POSTGRES_PASSWORD" := "secret"; "POSTGRES_PORT" := "abc" ]}.

(** The password is one quote character. *)
Definition lone_quote_env : gmap string string :=
  {[ "POSTGRES_PASSWORD" := "'" ]}.

(** A test file whose name has [test_] a second time, in the middle.
    Its module defines the function named after the file, and a helper
    whose name sorts before it. *)
Definition named_after_file : Runner.attr :=
  Runner.Callable (ret (Runner.RetPair true "the test ran")).

Definition helper : Runner.attr :=
  Runner.Callable (ret (Runner.RetPair false "the helper ran")).

Definition interior_prefix_file : Runner.test_file :=
  {| Runner.file_name := "test_a_test_b.py";
     Runner.file_is_file := true;
     Runner.file_has_spec := true;
     Runner.file_exec :=
       ret {[ "test_a_test_b" := named_after_file;
              "test_a_helper" := helper ]} |}.

(** A test that passes, a test whose module raises when loaded, and a
    file that is not a test. *)
Definition passing_file : Runner.test_file :=
  {| Runner.file_name := "test_python_version.py";
     Runner.file_is_file := true;
     Runner.file_has_spec := true;
     Runner.file_exec :=
       ret {[ "test_python_version" :=
                Runner.Callable (ret (Runner.RetPair true "ok")) ]} |}.

Definition broken_file : Runner.test_file :=
  {| Runner.file_name := "test_broken.py";
     Runner.file_is_file := true;
     Runner.file_has_spec := true;
     Runner.file_exec :=
       raise (Exn OtherException "No module named 'asyncpg'") |}.

Definition readme_file : Runner.test_file :=
  {| Runner.file_name := "README.md";
     Runner.file_is_file := true;
     Runner.file_has_spec := true;
     Runner.file_exec := ret ∅ |}.

(** A test whose function calls [sys.exit(7)]. *)
Definition exiting_file : Runner.test_file :=
  {| Runner.file_name := "test_exit.py";
     Runner.file_is_file := true;
     Runner.file_has_spec := true;
     Runner.file_exec :=
       ret {[ "test_exit" :=
                Runner.Callable (raise (Exn (SystemExit 7) "7")) ]} |}.

(** A test file that calls [sys.exit(1)] when it is executed as a
    module: the lines that run it as a script are not guarded. *)
Definition exits_on_import_file : Runner.test_file :=
  {| Runner.file_name := "test_cleanup.py";
     Runner.file_is_file := true;
     Runner.file_has_spec := true;
     Runner.file_exec := raise (Exn (SystemExit 1) "1") |}.

Definition test_cases_dir : string := "/srv/hades/test/test_cases".

End Examples.

(** [m] leaves [os.environ] alone and only adds events that satisfy [P]
    to the log. *)
Definition logs_only {A} (P : event → Prop) (m : M A) : Prop :=
  ∀ st, environ (m st).2 = environ st
        ∧ ∃ evs, log (m st).2 = log st ++ evs ∧ Forall P evs.

(** [m] returns, it does not raise. *)
Definition returns {A} (m : M A) : Prop :=
  ∀ st, ∃ a st', m st = (Ret a, st').

(** What the Container Controller may do to the outside: subprocess calls
    bounded by a timeout of 5 to 60 seconds, and sleeping. *)
Definition bounded_call (ev : event) : Prop :=
  match ev with
  | EvSubprocess _ (Some t) _ => (5 ≤ t ≤ 60)%Z
  | EvSleep _ => True
  | _ => False
  end.

(** ** The binding a line of a [.env] file stands for *)

(** The value of a line once one layer of quotes is removed. *)
Definition unquoted (v : string) : string :=
  if startswith dquote v && endswith dquote v
     || startswith squote v && endswith squote v
  then slice_1_m1 v else v.

(** What [load_env_file] reads off one line, whatever the environment
    is: the trimmed key and the trimmed value without its quotes, or
    nothing for a blank line, a comment, a line without [=] and a line
    whose key is empty. *)
Definition line_binding (line : string) : option (string * string) :=
  let line := strip line in
  if is_empty line || startswith "#" line then None
  else if negb (contains "=" line) then None
  else
    match split1 "=" line with
    | [key; value] =>
        let key := strip key in
        let value := strip value in
        let value :=
          if startswith dquote value && endswith dquote value
             || startswith squote value && endswith squote value
          then slice_1_m1 value else value in
        if is_empty key then None else Some (key, value)
    | _ => None
    end.

(** The bindings of a file, in the order of its lines. *)
Definition file_bindings (lines : list string) : list (string * string) :=
  omap line_binding lines.

(** A value the quote handling empties: nothing, one quote character, or
    two equal quote characters. *)
Definition only_quotes (v : string) : Prop :=
  v = "" ∨ is_quote v ∨ ∃ q, is_quote q ∧ v = q +:+ q.

(** A probe of the compose command succeeded: the call completed with
    status 0. *)
Definition probe_ok (r : result completed) : bool :=
  match r with
  | Ret c => (returncode c =? 0)%Z
  | Raise _ => false
  end.

(** The state after one more event. *)
Definition logged (st : state) (evs : list event) : state :=
  {| environ := environ st; log := log st ++ evs |}.

(** More concrete inputs. *)
Module MoreExamples.

(** The password is quoted twice in the file. *)
Definition nested_quotes_file : list string :=
  ["# credentials";
   "POSTGRES_PASSWORD=" +:+ dquote +:+ "'s3cret'" +:+ dquote].

(** A world with that [.env] file and a database that answers. *)
Definition world_with_file (lines : list string) : World :=
  {| env_file := Some lines;
     compose_file_exists := true;
     compose_file := "/srv/hades/docker-compose.yml";
     process_outcome := λ _ _, Ret Examples.healthy;
     connect_outcome := λ _ _, None;
     fetchval_outcome := λ _ _, Ret (PyInt 1);
     close_outcome := λ _, None;
     process_faults := ltac:(exceptions_only);
     connect_faults := ltac:(exceptions_only);
     fetchval_faults := ltac:(exceptions_only);
     close_faults := ltac:(exceptions_only) |}.

(** A password of blanks and a user set to the empty string. *)
Definition blank_env : gmap string string :=
  {[ "POSTGRES_PASSWORD" := "   "; "POSTGRES_USER" := "" ]}.

Definition blank_config : Config :=
  {| host := "localhost"; port := 5432; user := "";
     password := "   "; database := "hades_db" |}.

(** The container stops, but asking for its status times out. *)
Definition world_status_times_out : World :=
  {| env_file := None;
     compose_file_exists := true;
     compose_file := "/srv/hades/docker-compose.yml";
     process_outcome := λ _ argv,
       if bool_decide ("ps" ∈ argv)
       then Raise (Exn TimeoutExpired "timed out after 60 seconds")
       else Ret {| returncode := 0; stdout := ""; stderr := "" |};
     connect_outcome := λ _ _, None;
     fetchval_outcome := λ _ _, Ret (PyInt 1);
     close_outcome := λ _, None;
     process_faults := ltac:(exceptions_only);
     connect_faults := ltac:(exceptions_only);
     fetchval_faults := ltac:(exceptions_only);
     close_faults := ltac:(exceptions_only) |}.

(** [docker] is not installed, and the stand-alone [docker-compose]
    does not answer in time. *)
Definition world_without_docker : World :=
  {| env_file := None;
     compose_file_exists := true;
     compose_file := "/srv/hades/docker-compose.yml";
     process_outcome := λ _ argv,
       if bool_decide (head argv = Some "docker")
       then Raise (Exn FileNotFoundError
                     "[Errno 2] No such file or directory: 'docker'")
       else Raise (Exn TimeoutExpired "timed out after 5 seconds");
     connect_outcome := λ _ _, None;
     fetchval_outcome := λ _ _, Ret (PyInt 1);
     close_outcome := λ _, None;
     process_faults := ltac:(exceptions_only);
     connect_faults := ltac:(exceptions_only);
     fetchval_faults := ltac:(exceptions_only);
     close_faults := ltac:(exceptions_only) |}.

(** A module whose attribute with the derived name is not a function,
    beside a test function that could be called. *)
Definition shadowed_file : Runner.test_file :=
  {| Runner.file_name := "test_config.py";
     Runner.file_is_file := true;
     Runner.file_has_spec := true;
     Runner.file_exec :=
       ret {[ "test_config" := Runner.NotCallable "dict";
              "test_other" :=
                Runner.Callable (ret (Runner.RetPair true "ok")) ]} |}.

End MoreExamples.

(** A connection is attempted with a password and a user only. *)
Definition connects_with_credentials (ev : event) : Prop :=
  ∀ config, ev = EvConnect config → password config ≠ "" ∧ user config ≠ "".

(** The message of a failed connection test, by the class of the
    exception. *)
Definition failure_text (database_prefix : string) (e : exn) : string :=
  (if decide (exn_cls e = PostgresError)
   then database_prefix
   else "Unexpected error during connection test: ") +:+ exn_text e.

(** ** Facts about the string primitives *)

Section StringFacts.

Lemma app_cons (a : ascii) (s t : string) :
  String a s +:+ t = String a (s +:+ t).
Proof. reflexivity. Qed.

Lemma app_nil_l (t : string) : "" +:+ t = t.
Proof. reflexivity. Qed.

Lemma lstrip_app_sep (c : ascii) (k v : string) :
  isspace c = false →
  lstrip (k +:+ String c v) = lstrip k +:+ String c v.
Proof.
  intros Hc. induction k as [|a k IH].
  - rewrite app_nil_l. simpl. by rewrite Hc.
  - rewrite app_cons. simpl. destruct (isspace a); [exact IH | reflexivity].
Qed.

Lemma rstrip_sep (c : ascii) (v : string) :
  isspace c = false → rstrip (String c v) = String c (rstrip v).
Proof. intros Hc. simpl. destruct (rstrip v); by rewrite ?Hc. Qed.

Lemma rstrip_app_sep (c : ascii) (k v : string) :
  isspace c = false →
  rstrip (k +:+ String c v) = k +:+ String c (rstrip v).
Proof.
  intros Hc. induction k as [|a k IH].
  - rewrite !app_nil_l. by apply rstrip_sep.
  - rewrite !app_cons. simpl. rewrite IH.
    destruct k; reflexivity.
Qed.

Lemma lstrip_idem (s : string) : lstrip (lstrip s) = lstrip s.
Proof.
  induction s as [|a s IH]; [done|]. simpl.
  destruct (isspace a) eqn:Ha; [done|]. simpl. by rewrite Ha.
Qed.

Lemma lstrip_rstrip (s : string) : lstrip (rstrip s) = rstrip (lstrip s).
Proof.
  induction s as [|a s IH]; [done|]. simpl.
  destruct (isspace a) eqn:Ha.
  - rewrite <- IH. destruct (rstrip s); simpl; by rewrite ?Ha.
  - simpl. destruct (rstrip s); simpl; by rewrite Ha.
Qed.

Lemma rstrip_idem (s : string) : rstrip (rstrip s) = rstrip s.
Proof.
  induction s as [|a s IH]; [done|]. simpl.
  destruct (rstrip s) as [|b r] eqn:Hr.
  - destruct (isspace a) eqn:Ha; simpl; by rewrite ?Ha.
  - simpl in *. by rewrite IH.
Qed.

Lemma strip_lstrip (s : string) : strip (lstrip s) = strip s.
Proof. unfold strip. by rewrite lstrip_idem. Qed.

Lemma strip_rstrip (s : string) : strip (rstrip s) = strip s.
Proof. unfold strip. by rewrite lstrip_rstrip, rstrip_idem. Qed.

Lemma strip_idem (s : string) : strip (strip s) = strip s.
Proof. unfold strip at 2. by rewrite strip_rstrip, strip_lstrip. Qed.

Lemma contains_lstrip (c : ascii) (s : string) :
  contains c s = false → contains c (lstrip s) = false.
Proof.
  induction s as [|a s IH]; [done|]. simpl.
  destruct (isspace a); [|done].
  intros [_ H]%orb_false_iff. by apply IH.
Qed.

Lemma contains_app_sep (c : ascii) (k v : string) :
  contains c (k +:+ String c v) = true.
Proof.
  induction k as [|a k IH].
  - rewrite app_nil_l. simpl. by rewrite Ascii.eqb_refl.
  - rewrite app_cons. simpl. rewrite IH. by destruct (Ascii.eqb a c).
Qed.

Lemma split1_app_sep (c : ascii) (k v : string) :
  contains c k = false → split1 c (k +:+ String c v) = [k; v].
Proof.
  induction k as [|a k IH].
  - intros _. rewrite app_nil_l. simpl. by rewrite Ascii.eqb_refl.
  - rewrite app_cons. simpl. intros [Ha Hk]%orb_false_iff.
    rewrite Ha, (IH Hk). reflexivity.
Qed.

Lemma split1_no_sep (c : ascii) (s : string) :
  contains c s = false → split1 c s = [s].
Proof.
  induction s as [|a s IH]; [done|]. simpl.
  intros [Ha Hs]%orb_false_iff. by rewrite Ha, (IH Hs).
Qed.

Lemma is_empty_true (s : string) : is_empty s = true ↔ s = "".
Proof. by destruct s. Qed.

Lemma is_empty_false (s : string) : is_empty s = false ↔ s ≠ "".
Proof. by destruct s. Qed.

(** The first character of a stripped text that is not blank is the first
    character of the text with only its left side stripped. *)
Lemma rstrip_head (s : string) :
  rstrip s ≠ "" → ∃ a r r', s = String a r ∧ rstrip s = String a r'.
Proof.
  destruct s as [|a s]; [done|]. simpl. intros H.
  destruct (rstrip s) eqn:Hr.
  - destruct (isspace a); [done|]. eauto.
  - eauto.
Qed.

Lemma isspace_not_char (c a : ascii) :
  isspace c = false → isspace a = true → Ascii.eqb a c = false.
Proof.
  intros Hc Ha. destruct (Ascii.eqb a c) eqn:E; [|done].
  apply Ascii.eqb_eq in E as ->. congruence.
Qed.

Lemma contains_lstrip_eq (c : ascii) (s : string) :
  isspace c = false → contains c (lstrip s) = contains c s.
Proof.
  intros Hc. induction s as [|a s IH]; [done|]. simpl.
  destruct (isspace a) eqn:Ha; [|done].
  by rewrite IH, (isspace_not_char c a).
Qed.

Lemma contains_rstrip_eq (c : ascii) (s : string) :
  isspace c = false → contains c (rstrip s) = contains c s.
Proof.
  intros Hc. induction s as [|a s IH]; [done|]. simpl.
  destruct (rstrip s) as [|b r] eqn:Hr.
  - rewrite <- IH. destruct (isspace a) eqn:Ha; simpl.
    + by rewrite (isspace_not_char c a).
    + done.
  - simpl in *. by rewrite IH.
Qed.

Lemma contains_strip_eq (c : ascii) (s : string) :
  isspace c = false → contains c (strip s) = contains c s.
Proof.
  intros Hc. unfold strip. by rewrite contains_rstrip_eq, contains_lstrip_eq.
Qed.

Lemma contains_app (c : ascii) (s t : string) :
  contains c (s +:+ t) = contains c s || contains c t.
Proof.
  induction s as [|a s IH]; [done|]. rewrite app_cons. simpl.
  by rewrite IH, orb_assoc.
Qed.

Lemma contains_drop_last (c : ascii) (s : string) :
  contains c s = false → contains c (drop_last s) = false.
Proof.
  induction s as [|a s IH]; [done|]. simpl.
  intros [Ha Hs]%orb_false_iff. destruct s as [|b s]; [done|].
  change (contains c (String a (drop_last (String b s))) = false).
  simpl. rewrite Ha. by apply IH.
Qed.

Lemma contains_slice (c : ascii) (s : string) :
  contains c s = false → contains c (slice_1_m1 s) = false.
Proof.
  destruct s as [|a s]; [done|]. simpl.
  intros [_ Hs]%orb_false_iff. by apply contains_drop_last.
Qed.

Lemma contains_split1 (c sep : ascii) (s k v : string) :
  contains c s = false → split1 sep s = [k; v] →
  contains c k = false ∧ contains c v = false.
Proof.
  revert k. induction s as [|a s IH]; intros k; [done|]. simpl.
  intros [Ha Hs]%orb_false_iff.
  destruct (Ascii.eqb a sep).
  - by intros [= <- <-].
  - destruct (split1 sep s) as [|k' [|v' [|? ?]]]; try done.
    intros [= <- <-]. simpl. rewrite Ha.
    by destruct (IH k' Hs eq_refl).
Qed.

End StringFacts.

(** ** Facts about the removal of quotes *)

Section QuoteFacts.

Lemma startswith_char (c : ascii) (v : string) :
  startswith (String c "") v = true ↔ ∃ rest, v = String c rest.
Proof.
  unfold startswith. destruct v as [|b v]; simpl.
  - split; [done | by intros [? ?]].
  - destruct (ascii_dec c b) as [->|Hne].
    + split; [eauto | by destruct v].
    + split; [done | intros [? [= <- _]]; done].
Qed.

Lemma endswith_char (c : ascii) (s : string) :
  endswith (String c "") s = true ↔ ∃ inner, s = inner +:+ String c "".
Proof.
  induction s as [|a s IH].
  - split; [done | intros [[|??] ?]; done].
  - change (endswith (String c "") (String a s))
      with (String.eqb (String a s) (String c "") || endswith (String c "") s).
    rewrite orb_true_iff, IH. split.
    + intros [Heq | [inner ->]].
      * apply String.eqb_eq in Heq. exists "". by rewrite Heq.
      * exists (String a inner). by rewrite app_cons.
    + intros [[|b inner] Heq].
      * left. rewrite Heq. apply String.eqb_refl.
      * right. rewrite app_cons in Heq. injection Heq as _ ->. eauto.
Qed.

Lemma drop_last_snoc (inner : string) (c : ascii) :
  drop_last (inner +:+ String c "") = inner.
Proof.
  induction inner as [|a inner IH]; [done|].
  rewrite app_cons. simpl. rewrite IH.
  destruct inner; reflexivity.
Qed.

Lemma is_quote_char (q : string) :
  is_quote q → ∃ c, q = String c "".
Proof. intros [-> | ->]; eauto. Qed.

(** A value that starts and ends with the quote [c]: the quote alone, or
    a text between two of them. *)
Lemma quoted_by_cases (c : ascii) (v : string) :
  startswith (String c "") v = true → endswith (String c "") v = true →
  v = String c "" ∨ ∃ inner, v = String c "" +:+ inner +:+ String c "".
Proof.
  intros [rest ->]%startswith_char [inner Hin]%endswith_char.
  destruct inner as [|b inner].
  - left. by rewrite Hin.
  - right. rewrite app_cons in Hin. injection Hin as -> ->. by exists inner.
Qed.

Lemma slice_quoted (c : ascii) (inner : string) :
  slice_1_m1 (String c "" +:+ inner +:+ String c "") = inner.
Proof. rewrite app_cons, app_nil_l. simpl. apply drop_last_snoc. Qed.

(** The quote handling of [load_env_file], as an expression of the value. *)
Lemma loader_quotes_strip (v : string) :
  strips_to v
    (if startswith dquote v && endswith dquote v
        || startswith squote v && endswith squote v
     then slice_1_m1 v else v).
Proof.
  destruct (startswith dquote v && endswith dquote v) eqn:Hd; simpl.
  { apply andb_true_iff in Hd as [Hs He].
    destruct (quoted_by_cases _ _ Hs He) as [-> | [inner ->]].
    - apply (strips_lone dquote). by left.
    - rewrite slice_quoted. apply (strips_pair dquote). by left. }
  destruct (startswith squote v && endswith squote v) eqn:Hq; simpl.
  { apply andb_true_iff in Hq as [Hs He].
    destruct (quoted_by_cases _ _ Hs He) as [-> | [inner ->]].
    - apply (strips_lone squote). by right.
    - rewrite slice_quoted. apply (strips_pair squote). by right. }
  apply strips_plain. intros (q & [-> | ->] & Hs & He).
  - by rewrite Hs, He in Hd.
  - by rewrite Hs, He in Hq.
Qed.

(** The [if]/[elif] of [get_db_config] computes the same value. *)
Lemma resolver_quotes_eq (v : string) :
  (if startswith dquote v && endswith dquote v then slice_1_m1 v
   else if startswith squote v && endswith squote v then slice_1_m1 v
   else v)
  = (if startswith dquote v && endswith dquote v
        || startswith squote v && endswith squote v
     then slice_1_m1 v else v).
Proof. by destruct (startswith dquote v && endswith dquote v). Qed.

(** [strips_to] relates a value to one result only. *)
Lemma strips_to_functional (v r1 r2 : string) :
  strips_to v r1 → strips_to v r2 → r1 = r2.
Proof.
  intros H1 H2.
  pose proof (loader_quotes_strip v) as H0.
  assert (∀ r, strips_to v r →
    r = (if startswith dquote v && endswith dquote v
            || startswith squote v && endswith squote v
         then slice_1_m1 v else v)) as Hall.
  { clear. intros r H. destruct H as [q inner Hq | q Hq | v Hv].
    - destruct Hq as [-> | ->].
      + assert (startswith dquote (dquote +:+ inner +:+ dquote) = true) as ->
          by (apply startswith_char; eauto).
        assert (endswith dquote (dquote +:+ inner +:+ dquote) = true) as ->.
        { apply endswith_char. exists (dquote +:+ inner).
          unfold dquote. by rewrite !app_cons, !app_nil_l. }
        simpl. symmetry. apply slice_quoted.
      + assert (startswith squote (squote +:+ inner +:+ squote) = true) as Hs
          by (apply startswith_char; eauto).
        assert (endswith squote (squote +:+ inner +:+ squote) = true) as He.
        { apply endswith_char. exists (squote +:+ inner).
          unfold squote. by rewrite !app_cons, !app_nil_l. }
        rewrite Hs, He, orb_true_r. symmetry. apply (slice_quoted "'").
    - by destruct Hq as [-> | ->].
    - destruct (startswith dquote v && endswith dquote v) eqn:Hd.
      { exfalso. apply Hv. exists dquote.
        apply andb_true_iff in Hd as [? ?]. split; [by left | done]. }
      destruct (startswith squote v && endswith squote v) eqn:Hq; [|done].
      exfalso. apply Hv. exists squote.
      apply andb_true_iff in Hq as [? ?]. split; [by right | done]. }
  by rewrite (Hall r1 H1), (Hall r2 H2).
Qed.

End QuoteFacts.

(** ** Environment Loader *)

Section Loader.
Implicit Types (environ : gmap string string) (line key : string).

(** A line either leaves the environment as it is or adds one key that
    is not empty and was absent. *)
Lemma load_line_cases environ line :
  Env.load_line environ line = environ
  ∨ ∃ key value, key ≠ "" ∧ environ !! key = None
                 ∧ Env.load_line environ line = <[key := value]> environ.
Proof.
  unfold Env.load_line.
  destruct (is_empty (strip line) || startswith "#" (strip line)); [by left|].
  destruct (negb (contains "=" (strip line))); [by left|].
  destruct (split1 "=" (strip line)) as [|k [|v [|? ?]]]; try by left.
  destruct (is_empty (strip k)) eqn:Hk; simpl; [by left|].
  case_bool_decide as Hnone; [|by left].
  right. eexists _, _. split; [by apply is_empty_false|]. split; done.
Qed.

Lemma load_line_keeps environ line key value :
  environ !! key = Some value → Env.load_line environ line !! key = Some value.
Proof.
  intros H. destruct (load_line_cases environ line) as [-> | (k & v & _ & Hk & ->)];
    [done|].
  rewrite lookup_insert_ne; [done|]. intros ->. congruence.
Qed.


Lemma load_lines_keeps (lines : list string) environ key value :
  environ !! key = Some value →
  foldl Env.load_line environ lines !! key = Some value.
Proof.
  revert environ. induction lines as [|l lines IH]; intros environ H; [done|].
  simpl. apply IH. by apply load_line_keeps.
Qed.


(** The loop body in terms of the binding of the line. *)
Lemma load_line_binding environ line :
  Env.load_line environ line
  = match line_binding line with
    | Some (key, value) =>
        if bool_decide (environ !! key = None)
        then <[key := value]> environ else environ
    | None => environ
    end.
Proof.
  unfold Env.load_line, line_binding.
  destruct (is_empty (strip line) || startswith "#" (strip line)); [done|].
  destruct (negb (contains "=" (strip line))); [done|].
  destruct (split1 "=" (strip line)) as [|k [|v [|? ?]]]; try done.
  by destruct (is_empty (strip k)).
Qed.

Lemma run_line_binding environ line :
  Env.run_line environ line
  = match line_binding line with
    | Some (key, value) =>
        if bool_decide (environ !! key = None)
        then Env.assign environ key value else Ret environ
    | None => Ret environ
    end.
Proof.
  unfold Env.run_line, line_binding.
  destruct (is_empty (strip line) || startswith "#" (strip line)); [done|].
  destruct (negb (contains "=" (strip line))); [done|].
  destruct (split1 "=" (strip line)) as [|k [|v [|? ?]]]; try done.
  by destruct (is_empty (strip k)).
Qed.

(** The binding of a line [KEY=VALUE]. *)
Lemma line_binding_sets (K V : string) :
  contains "=" K = false →
  strip K ≠ "" →
  startswith "#" (strip K) = false →
  line_binding (K +:+ "=" +:+ V) = Some (strip K, unquoted (strip V)).
Proof.
  intros HK Hne Hhash.
  assert (isspace "=" = false) as Hsp by reflexivity.
  assert (strip (K +:+ "=" +:+ V) = lstrip K +:+ String "=" (rstrip V)) as Hline.
  { unfold strip. change ("=" +:+ V) with (String "=" V).
    by rewrite lstrip_app_sep, rstrip_app_sep. }
  destruct (rstrip_head (lstrip K) Hne) as (a & r & r' & HlK & HsK).
  unfold line_binding. rewrite Hline.
  assert (is_empty (lstrip K +:+ String "=" (rstrip V)) = false) as ->
    by (by rewrite HlK).
  assert (startswith "#" (lstrip K +:+ String "=" (rstrip V)) = false) as ->.
  { unfold strip in Hhash. rewrite HsK in Hhash. rewrite HlK, app_cons.
    destruct (startswith "#" (String a (r +:+ String "=" (rstrip V)))) eqn:E;
      [|done].
    apply startswith_char in E as [rest [= -> _]].
    rewrite <- Hhash. symmetry. apply startswith_char. eauto. }
  rewrite contains_app_sep. simpl.
  rewrite split1_app_sep by (by apply contains_lstrip).
  rewrite strip_lstrip, strip_rstrip.
  by assert (is_empty (strip K) = false) as -> by (by apply is_empty_false).
Qed.


(** A NUL is in the value of the line exactly when it is in the text
    after the separator: it is neither whitespace nor a quote. *)
Lemma contains_nul_unquoted (v : string) :
  contains "000" (unquoted v) = contains "000" v.
Proof.
  unfold unquoted.
  destruct (startswith dquote v && endswith dquote v) eqn:Hd; simpl.
  { apply andb_true_iff in Hd as [Hs He].
    destruct (quoted_by_cases _ _ Hs He) as [-> | [inner ->]]; [done|].
    rewrite slice_quoted, app_cons, app_nil_l. simpl.
    by rewrite contains_app, orb_false_r. }
  destruct (startswith squote v && endswith squote v) eqn:Hq; simpl; [|done].
  apply andb_true_iff in Hq as [Hs He].
  destruct (quoted_by_cases _ _ Hs He) as [-> | [inner ->]]; [done|].
  rewrite (slice_quoted "'"), app_cons, app_nil_l. simpl.
  by rewrite contains_app, orb_false_r.
Qed.

(** The loop body on a line [KEY=VALUE] whose key is free: the key is
    bound when neither the key nor the value holds a NUL, and otherwise
    the assignment is refused. *)
Lemma run_line_sets environ (K V : string) :
  contains "=" K = false →
  strip K ≠ "" →
  startswith "#" (strip K) = false →
  environ !! strip K = None →
  Env.run_line environ (K +:+ "=" +:+ V)
  = if contains "000" K || contains "000" V
    then Raise (Exn ValueError "embedded null byte")
    else Ret (<[strip K := unquoted (strip V)]> environ).
Proof.
  intros HK Hne Hhash Hfree.
  rewrite run_line_binding, (line_binding_sets K V HK Hne Hhash).
  rewrite bool_decide_eq_true_2 by done. unfold Env.assign.
  by rewrite contains_nul_unquoted, !contains_strip_eq.
Qed.

(** Lines that are blank, comments, or without the separator change
    nothing. *)
Lemma load_line_skips environ line :
  strip line = "" ∨ startswith "#" (strip line) = true
  ∨ contains "=" line = false →
  Env.load_line environ line = environ.
Proof.
  rewrite <- (contains_strip_eq "=" line) by reflexivity.
  unfold Env.load_line. intros [-> | [-> | ->]]; [done | |].
  - by rewrite orb_true_r.
  - simpl. by destruct (_ || _).
Qed.

Lemma run_line_skips environ line :
  strip line = "" ∨ startswith "#" (strip line) = true
  ∨ contains "=" line = false →
  Env.run_line environ line = Ret environ.
Proof.
  rewrite <- (contains_strip_eq "=" line) by reflexivity.
  unfold Env.run_line. intros [-> | [-> | ->]]; [done | |].
  - by rewrite orb_true_r.
  - simpl. by destruct (_ || _).
Qed.

Lemma load_env_file_keeps (file : option (list string)) environ key value :
  environ !! key = Some value →
  Env.load_env_file file environ !! key = Some value.
Proof. destruct file; [apply load_lines_keeps | done]. Qed.

(** *** The loop with the exception of a refused assignment *)

Lemma line_binding_nul_free line key value :
  line_binding line = Some (key, value) →
  contains "000" line = false →
  contains "000" key = false ∧ contains "000" value = false.
Proof.
  unfold line_binding. intros Hb Hfree.
  rewrite <- (contains_strip_eq "000" line) in Hfree by reflexivity.
  destruct (is_empty (strip line) || startswith "#" (strip line)); [done|].
  destruct (negb (contains "=" (strip line))); [done|].
  destruct (split1 "=" (strip line)) as [|k [|v [|? ?]]] eqn:Hsplit; try done.
  destruct (contains_split1 _ _ _ _ _ Hfree Hsplit) as [Hk Hv].
  destruct (is_empty (strip k)); [done|]. injection Hb as <- <-.
  split; [by rewrite contains_strip_eq|].
  fold (unquoted (strip v)). by rewrite contains_nul_unquoted, contains_strip_eq.
Qed.

(** The loop body either gives what [Env.load_line] gives, or it raises
    and the key of the line is one that was absent. *)
Lemma run_line_cases environ line :
  Env.run_line environ line = Ret (Env.load_line environ line)
  ∨ Env.run_line environ line = Raise (Exn ValueError "embedded null byte")
    ∧ ¬ nul_free line.
Proof.
  rewrite run_line_binding, load_line_binding.
  destruct (line_binding line) as [[key value]|] eqn:Hb; [|by left].
  case_bool_decide; [|by left]. unfold Env.assign.
  destruct (contains "000" key || contains "000" value) eqn:Hnul; [|by left].
  right. split; [done|]. unfold nul_free. intros Hfree.
  apply (line_binding_nul_free line key value Hb) in Hfree as [Hk Hv].
  by rewrite Hk, Hv in Hnul.
Qed.

Lemma run_line_nul_free environ line :
  nul_free line → Env.run_line environ line = Ret (Env.load_line environ line).
Proof. intros Hfree. by destruct (run_line_cases environ line) as [? | [_ ?]]. Qed.

Lemma run_lines_app (lines1 lines2 : list string) environ :
  Env.run_lines environ (lines1 ++ lines2)
  = match Env.run_lines environ lines1 with
    | (environ1, None) => Env.run_lines environ1 lines2
    | stopped => stopped
    end.
Proof.
  revert environ. induction lines1 as [|l lines1 IH]; intros environ; [done|].
  simpl. by destruct (Env.run_line environ l).
Qed.

(** When the loop ends without an exception the environment is the one
    [Env.load_env_file] gives. *)
Lemma run_lines_returned (lines : list string) environ environ' :
  Env.run_lines environ lines = (environ', None) →
  environ' = foldl Env.load_line environ lines.
Proof.
  revert environ. induction lines as [|l lines IH]; intros environ; simpl.
  - by intros [= <-].
  - destruct (run_line_cases environ l) as [-> | [-> _]]; [apply IH | done].
Qed.

(** A file without a NUL is loaded to its end. *)
Lemma run_lines_nul_free (lines : list string) environ :
  Forall nul_free lines →
  Env.run_lines environ lines = (foldl Env.load_line environ lines, None).
Proof.
  intros Hfree. revert environ.
  induction Hfree as [|l lines Hl _ IH]; intros environ; [done|].
  simpl. by rewrite (run_line_nul_free _ _ Hl).
Qed.

Lemma run_load_env_file_returned (file : option (list string))
    environ environ' :
  Env.run_load_env_file file environ = (environ', None) →
  environ' = Env.load_env_file file environ.
Proof.
  destruct file as [lines|]; simpl; [apply run_lines_returned|].
  by intros [= <-].
Qed.

Lemma run_load_env_file_nul_free (file : option (list string)) environ :
  Forall nul_free (default [] file) →
  Env.run_load_env_file file environ
  = (Env.load_env_file file environ, None).
Proof. destruct file as [lines|]; simpl; [apply run_lines_nul_free | done]. Qed.

(** The loop never changes a key that is set, whether it ends with an
    exception or not. *)
Lemma run_lines_keeps (lines : list string) environ key value :
  environ !! key = Some value →
  (Env.run_lines environ lines).1 !! key = Some value.
Proof.
  revert environ. induction lines as [|l lines IH]; intros environ H; [done|].
  simpl. destruct (run_line_cases environ l) as [-> | [-> _]]; [|done].
  apply IH. by apply load_line_keeps.
Qed.

End Loader.


(** C3, on the code.  A line [KEY=VALUE] (no [=] in [KEY], the trimmed
    key neither empty nor a comment) whose key is not set when the line
    is read, in a file whose earlier lines were loaded.  When neither
    [KEY] nor [VALUE] holds a NUL, the line binds the trimmed key to the
    trimmed value with one layer of matching quotes removed, and the rest
    of the file does not change it, whether the rest is loaded to its end
    or not.  When one of them holds a NUL, [os.environ] refuses the
    assignment with [ValueError]: the load ends there, the key stays
    unset and the lines after it are not read.  Blank lines, comment
    lines and lines without [=] change nothing and raise nothing; a
    missing file changes nothing. *)
Theorem load_env_file_sets_key :
  (∀ (environ loaded : gmap string string) (before after : list string)
     (K V : string),
     contains "=" K = false →
     strip K ≠ "" →
     startswith "#" (strip K) = false →
     Env.run_load_env_file (Some before) environ = (loaded, None) →
     loaded !! strip K = None →
     let file := Some (before ++ (K +:+ "=" +:+ V) :: after) in
     (nul_free K → nul_free V →
      ∃ value,
        strips_to (strip V) value
        ∧ Env.run_load_env_file (Some (before ++ [K +:+ "=" +:+ V])) environ
          = (<[strip K := value]> loaded, None)
        ∧ (Env.run_load_env_file file environ).1 !! strip K = Some value)
     ∧ (¬ (nul_free K ∧ nul_free V) →
        Env.run_load_env_file file environ
        = (loaded, Some (Exn ValueError "embedded null byte"))))
  ∧ (∀ (environ : gmap string string) (before after : list string)
       (line : string),
       strip line = "" ∨ startswith "#" (strip line) = true
       ∨ contains "=" line = false →
       Env.run_load_env_file (Some (before ++ line :: after)) environ
       = Env.run_load_env_file (Some (before ++ after)) environ)
  ∧ (∀ environ : gmap string string,
       Env.run_load_env_file None environ = (environ, None)).
Proof.
  split; [|split; [|done]].
  - intros environ loaded before after K V HK Hne Hhash Hbefore Hfree file.
    subst file. simpl in *. split.
    + intros HnK HnV. unfold nul_free in HnK, HnV.
      exists (unquoted (strip V)). split; [apply loader_quotes_strip|].
      rewrite !run_lines_app, Hbefore. simpl.
      rewrite (run_line_sets _ K V HK Hne Hhash Hfree), HnK, HnV. simpl.
      split; [done|]. apply run_lines_keeps, lookup_insert_eq.
    + intros Hnul. rewrite run_lines_app, Hbefore. simpl.
      rewrite (run_line_sets _ K V HK Hne Hhash Hfree).
      destruct (contains "000" K) eqn:HnK; [done|].
      destruct (contains "000" V) eqn:HnV; [done|].
      by destruct Hnul.
  - intros environ before after line Hline. simpl. rewrite !run_lines_app.
    destruct (Env.run_lines environ before) as [environ1 [e|]]; [done|].
    simpl. by rewrite run_line_skips.
Qed.

Lemma load_env_file_sets_key_witness :
  ∃ value,
    strips_to "'hades'" value
    ∧ (Env.run_load_env_file
         (Some ["# database"; " POSTGRES_USER = 'hades' "; "POSTGRES_USER=x"])
         {[ "HOME" := "/root" ]}).1 !! "POSTGRES_USER" = Some value.
Proof.
  destruct load_env_file_sets_key as (Hline & _).
  destruct (Hline {[ "HOME" := "/root" ]} {[ "HOME" := "/root" ]}
              ["# database"] ["POSTGRES_USER=x"]
              " POSTGRES_USER " " 'hades' ")
    as (Hset & _);
    [first [reflexivity | vm_compute; discriminate].. |].
  destruct Hset as (value & Hvalue & _ & Hkey); [reflexivity..|].
  exists value. split; [exact Hvalue | exact Hkey].
Defined.

(** C3 as stated fails on a line whose value holds a NUL: the key of
    the second line is not empty and not set, yet after the load it is
    not bound, the load ended with [ValueError] and the third line was
    not read; the stand-alone script ends there with status 1. *)
Lemma nul_in_value_stops_the_load :
  Env.run_load_env_file (Some Examples.nul_file) ∅
  = ({[ "A" := "1" ]}, Some (Exn ValueError "embedded null byte"))
  ∧ ConnScript.script Examples.world_nul_file (Examples.start ∅)
    = (1%Z,
       {| environ := {[ "A" := "1" ]};
          log := [EvTraceback (Exn ValueError "embedded null byte")] |}).
Proof. split; vm_compute; reflexivity. Qed.


(** ** Config Resolver *)

Section ResolverFacts.
Implicit Types (environ : gmap string string).

(** What [get_db_config] returns when the port can be read. *)
Lemma get_db_config_ret environ (p : Z) :
  py_int (Env.getenv environ "POSTGRES_PORT" "5432") = Some p →
  ∃ pw, strips_to (Env.getenv environ "POSTGRES_PASSWORD" "") pw
        ∧ Resolver.get_db_config environ
          = Ret {| host := Env.getenv environ "POSTGRES_HOST" "localhost";
                   port := p;
                   user := Env.getenv environ "POSTGRES_USER" "hades";
                   password := pw;
                   database := Env.getenv environ "POSTGRES_DB" "hades_db" |}.
Proof.
  intros Hp. unfold Resolver.get_db_config. rewrite Hp, resolver_quotes_eq.
  eexists. split; [apply loader_quotes_strip | reflexivity].
Qed.

(** ... and when it cannot. *)
Lemma get_db_config_raise environ :
  py_int (Env.getenv environ "POSTGRES_PORT" "5432") = None →
  Resolver.get_db_config environ
  = Raise (Resolver.int_error (Env.getenv environ "POSTGRES_PORT" "5432")).
Proof. intros Hp. unfold Resolver.get_db_config. by rewrite Hp. Qed.

Lemma get_db_config_inv environ (cfg : Config) :
  Resolver.get_db_config environ = Ret cfg →
  host cfg = Env.getenv environ "POSTGRES_HOST" "localhost"
  ∧ py_int (Env.getenv environ "POSTGRES_PORT" "5432") = Some (port cfg)
  ∧ user cfg = Env.getenv environ "POSTGRES_USER" "hades"
  ∧ strips_to (Env.getenv environ "POSTGRES_PASSWORD" "") (password cfg)
  ∧ database cfg = Env.getenv environ "POSTGRES_DB" "hades_db".
Proof.
  destruct (py_int (Env.getenv environ "POSTGRES_PORT" "5432")) as [p|] eqn:Hp.
  - destruct (get_db_config_ret environ p Hp) as (pw & Hpw & ->).
    intros [= <-]. simpl. done.
  - rewrite (get_db_config_raise environ Hp). done.
Qed.

End ResolverFacts.

(** C9.  With none of the five [POSTGRES_*] variables set, the resolver
    returns the five defaults; and whenever it returns, every field of the
    config is the variable's value or its default (the port read as an
    integer, the password with one layer of quotes removed). *)
Theorem get_db_config_defaults (environ : gmap string string) :
  environ !! "POSTGRES_HOST" = None →
  environ !! "POSTGRES_PORT" = None →
  environ !! "POSTGRES_USER" = None →
  environ !! "POSTGRES_PASSWORD" = None →
  environ !! "POSTGRES_DB" = None →
  Resolver.get_db_config environ
  = Ret {| host := "localhost"; port := 5432; user := "hades";
           password := ""; database := "hades_db" |}
  ∧ ∀ environ' cfg,
      Resolver.get_db_config environ' = Ret cfg →
      host cfg = default "localhost" (environ' !! "POSTGRES_HOST")
      ∧ py_int (default "5432" (environ' !! "POSTGRES_PORT")) = Some (port cfg)
      ∧ user cfg = default "hades" (environ' !! "POSTGRES_USER")
      ∧ strips_to (default "" (environ' !! "POSTGRES_PASSWORD")) (password cfg)
      ∧ database cfg = default "hades_db" (environ' !! "POSTGRES_DB").
Proof.
  intros Hh Hp Hu Hpw Hd. split.
  - unfold Resolver.get_db_config, Env.getenv. by rewrite Hh, Hp, Hu, Hpw, Hd.
  - intros environ' cfg. apply get_db_config_inv.
Qed.

Lemma get_db_config_defaults_witness :
  Resolver.get_db_config {[ "HOME" := "/root" ]}
  = Ret {| host := "localhost"; port := 5432; user := "hades";
           password := ""; database := "hades_db" |}.
Proof.
  apply (get_db_config_defaults {[ "HOME" := "/root" ]}); reflexivity.
Defined.


(** ** Connectivity Checker *)

Ltac run_monad :=
  unfold bind, ret, raise, try_except, try_finally, emit, print, sleep,
    get_environ, set_environ, lift_result, log_then, option_raise in *;
  simpl in *.

(** Uses what the outside world guarantees: the exception of a call
    that raised is an instance of [Exception]. *)
Ltac world_faults :=
  repeat match goal with
  | H : process_outcome ?w _ _ = Raise ?e |- _ =>
      progress rewrite (process_faults w _ _ _ H)
  | H : connect_outcome ?w _ _ = Some ?e |- _ =>
      progress rewrite (connect_faults w _ _ _ H)
  | H : fetchval_outcome ?w _ _ = Raise ?e |- _ =>
      progress rewrite (fetchval_faults w _ _ _ H)
  | H : close_outcome ?w _ = Some ?e |- _ =>
      progress rewrite (close_faults w _ _ H)
  end.

Lemma py_eq_1_true (v : pyval) : py_eq_1 v = true → v = PyInt 1.
Proof. by destruct v as [[|[| |]|]| |]. Qed.

(** C1, on the code.  The checker of the test case returns a pair and
    never raises; it reports success only when the connection opened, the
    query gave 1 and the connection closed; a fault is reported with the
    text of the exception, after [Database connection failed] for a
    [PostgresError] and after [Unexpected error] for any other; a
    connection that opened is closed before the function returns.  The
    checker of the stand-alone script returns a boolean only, prints the
    message, and reports success whenever no exception was raised,
    whatever the query gave; it handles faults and closes the connection in
    the same way. *)
Theorem test_connection_contract (w : World) (config : Config) (st : state) :
  let h := log st in
  let opened := connect_outcome w h config = None in
  let session := [EvConnect config; EvFetchval "SELECT 1;"; EvClose] in
  (∃ ok msg st',
      DbTest.test_connection w config st = (Ret (ok, msg), st')
      ∧ environ st' = environ st
      ∧ (opened → log st' = h ++ session)
      ∧ (¬ opened → log st' = h ++ [EvConnect config])
      ∧ (ok = true →
         opened
         ∧ fetchval_outcome w (h ++ [EvConnect config]) "SELECT 1;"
           = Ret (PyInt 1)
         ∧ db_fault w h config = None)
      ∧ (∀ e, db_fault w h config = Some e →
              ok = false
              ∧ msg = (if decide (exn_cls e = PostgresError)
                       then "Database connection failed: "
                       else "Unexpected error during connection test: ")
                      +:+ exn_text e))
  ∧ (∃ ok line st',
      ConnScript.test_connection w config st = (Ret ok, st')
      ∧ environ st' = environ st
      ∧ (opened → log st' = h ++ session ++ [EvPrint Stdout line])
      ∧ (¬ opened → log st' = h ++ [EvConnect config; EvPrint Stdout line])
      ∧ (ok = true ↔ db_fault w h config = None)
      ∧ (∀ e, db_fault w h config = Some e →
              line = (if decide (exn_cls e = PostgresError)
                      then "Connection failed: "
                      else "Unexpected error during connection test: ")
                     +:+ exn_text e)).
Proof.
  intros h opened session. subst h opened session.
  unfold DbTest.test_connection, ConnScript.test_connection, db_fault,
    connect, fetchval, close.
  run_monad.
  destruct (connect_outcome w (log st) config) as [ec|] eqn:Hc; simpl.
  { world_faults.
    split; destruct (decide (exn_cls ec = PostgresError)); simpl;
      eexists _, _, _; (split; [reflexivity|]); simpl;
      rewrite <- ?app_assoc; simpl;
      repeat split; try done;
      intros; simplify_eq/=; by repeat case_decide. }
  destruct (fetchval_outcome w (log st ++ [EvConnect config]) "SELECT 1;")
    as [v|ef] eqn:Hf; simpl;
  destruct (close_outcome w
              ((log st ++ [EvConnect config]) ++ [EvFetchval "SELECT 1;"]))
    as [ecl|] eqn:Hcl; simpl.
  all: split.
  all: repeat match goal with
       | |- context [py_eq_1 ?v] => destruct (py_eq_1 v) eqn:?; simpl
       | |- context [decide (exn_cls ?e = PostgresError)] =>
           destruct (decide (exn_cls e = PostgresError)); simpl
       | _ => progress (rewrite ?Hf, ?Hcl; simpl)
       | _ => progress world_faults
       end.
  all: eexists _, _, _; (split; [reflexivity|]); simpl;
       rewrite <- ?app_assoc; simpl.
  all: repeat split; try done.
  all: try by (intros; simplify_eq/=; repeat case_decide).
  all: f_equal; by apply py_eq_1_true.
Qed.

Lemma test_connection_contract_witness :
  ∃ msg st',
    DbTest.test_connection (Examples.world (PyInt 1)) Examples.cfg
      (Examples.start ∅) = (Ret (true, msg), st')
    ∧ log st' = [EvConnect Examples.cfg; EvFetchval "SELECT 1;"; EvClose].
Proof.
  destruct (test_connection_contract (Examples.world (PyInt 1)) Examples.cfg
              (Examples.start ∅))
    as [(ok & msg & st' & Hrun & _ & Hlog & _) _].
  exists msg, st'. split.
  - rewrite Hrun. vm_compute in Hrun. by injection Hrun as <- _ _.
  - apply Hlog. reflexivity.
Defined.

(** C1 as stated fails on the stand-alone script: its checker reports
    success although the query came back with 2, and what it returns is
    the boolean alone. *)
Lemma script_checker_accepts_any_value :
  fetchval_outcome (Examples.world (PyInt 2)) [EvConnect Examples.cfg]
    "SELECT 1;" = Ret (PyInt 2)
  ∧ ConnScript.test_connection (Examples.world (PyInt 2)) Examples.cfg
      (Examples.start ∅)
    = (Ret true,
       {| environ := ∅;
          log := [EvConnect Examples.cfg; EvFetchval "SELECT 1;"; EvClose;
                  EvPrint Stdout
                    "Connection successful to hades@localhost:5432/hades_db"]
       |}).
Proof. split; vm_compute; reflexivity. Qed.

(** ** The shape of effects *)

Section Effects.
Context {A B : Type} (P : event → Prop).

Lemma logs_only_ret (a : A) : logs_only P (ret a).
Proof. intros st. split; [done|]. exists []. by rewrite app_nil_r. Qed.

Lemma logs_only_raise (e : exn) : logs_only P (@raise A e).
Proof. intros st. split; [done|]. exists []. by rewrite app_nil_r. Qed.

Lemma logs_only_log_then (ev : event) (r : result A) :
  P ev → logs_only P (log_then ev r).
Proof. intros Hev st. split; [done|]. exists [ev]. split; [done|]. by constructor. Qed.

Lemma logs_only_bind (m : M A) (k : A → M B) :
  logs_only P m → (∀ a, logs_only P (k a)) → logs_only P (bind m k).
Proof.
  intros Hm Hk st. unfold bind.
  destruct (Hm st) as (He & evs & Hl & Hp).
  destruct (m st) as [[a|e] st1]; simpl in *.
  - destruct (Hk a st1) as (He' & evs' & Hl' & Hp').
    split; [congruence|]. exists (evs ++ evs').
    split; [by rewrite Hl', Hl, app_assoc | by apply Forall_app].
  - split; [done|]. by exists evs.
Qed.

Lemma logs_only_try_except (m : M A) (h : exn → M A) :
  logs_only P m → (∀ e, logs_only P (h e)) → logs_only P (try_except m h).
Proof.
  intros Hm Hh st. unfold try_except.
  destruct (Hm st) as (He & evs & Hl & Hp).
  destruct (m st) as [[a|e] st1]; simpl in *.
  - split; [done|]. by exists evs.
  - destruct (is_exception e); [|split; [done|]; by exists evs].
    destruct (Hh e st1) as (He' & evs' & Hl' & Hp').
    split; [congruence|]. exists (evs ++ evs').
    split; [by rewrite Hl', Hl, app_assoc | by apply Forall_app].
Qed.

Lemma raises_only_ret (a : A) : raises_exceptions_only (ret a).
Proof. by intros st e st'. Qed.

Lemma raises_only_bind (m : M A) (k : A → M B) :
  raises_exceptions_only m → (∀ a, raises_exceptions_only (k a)) →
  raises_exceptions_only (bind m k).
Proof.
  intros Hm Hk st e st'. unfold bind.
  destruct (m st) as [[a|e0] st1] eqn:Hrun.
  - apply Hk.
  - intros [= <- <-]. by eapply Hm.
Qed.

Lemma returns_ret (a : A) : returns (ret a).
Proof. intros st. by eexists _, _. Qed.

Lemma returns_bind (m : M A) (k : A → M B) :
  returns m → (∀ a, returns (k a)) → returns (bind m k).
Proof.
  intros Hm Hk st. unfold bind.
  destruct (Hm st) as (a & st1 & ->). apply Hk.
Qed.

Lemma returns_try_except (m : M A) (h : exn → M A) :
  raises_exceptions_only m → (∀ e, returns (h e)) →
  returns (try_except m h).
Proof.
  intros Hm Hh st. unfold try_except.
  destruct (m st) as [[a|e] st1] eqn:Hrun; [by eexists _, _|].
  rewrite (Hm _ _ _ Hrun). apply Hh.
Qed.

End Effects.

Lemma logs_only_emit (P : event → Prop) (ev : event) :
  P ev → logs_only P (emit ev).
Proof. intros Hev st. split; [done|]. exists [ev]. split; [done|]. by constructor. Qed.

Lemma returns_emit (ev : event) : returns (emit ev).
Proof. intros st. by eexists _, _. Qed.

Lemma logs_only_subprocess_run (P : event → Prop) (w : World)
    (argv : list string) (timeout : option Z) (check : bool) :
  P (EvSubprocess argv timeout check) →
  logs_only P (subprocess_run w argv timeout check).
Proof.
  intros Hev st. unfold subprocess_run. by apply logs_only_log_then.
Qed.

Lemma raises_only_emit (ev : event) : raises_exceptions_only (emit ev).
Proof. by intros st e st'. Qed.

Lemma raises_only_subprocess_run (w : World)
    (argv : list string) (timeout : option Z) (check : bool) :
  raises_exceptions_only (subprocess_run w argv timeout check).
Proof.
  intros st e st'. unfold subprocess_run, log_then.
  destruct (process_outcome w (log st) argv) as [c|e0] eqn:Hout.
  - destruct (check && negb (returncode c =? 0)%Z); [|done].
    by intros [= <- _].
  - intros [= <- _]. by eapply process_faults.
Qed.

Lemma logs_only_weaken {A} (P Q : event → Prop) (m : M A) :
  (∀ ev, P ev → Q ev) → logs_only P m → logs_only Q m.
Proof.
  intros HPQ Hm st. destruct (Hm st) as (He & evs & Hl & Hp).
  split; [done|]. exists evs. split; [done|]. by eapply Forall_impl.
Qed.

Ltac effects :=
  repeat first
    [ apply logs_only_bind; [|intros ?]
    | apply logs_only_try_except; [|intros ?]
    | apply returns_bind; [|intros ?]
    | apply returns_try_except; [|intros ?]
    | apply raises_only_bind; [|intros ?]
    | apply raises_only_ret | apply raises_only_emit
    | apply raises_only_subprocess_run
    | apply logs_only_ret | apply logs_only_raise
    | apply returns_ret | apply returns_emit
    | apply logs_only_emit; simpl; try done; try lia
    | apply logs_only_subprocess_run; simpl; try done; try lia
    | match goal with
      | |- context [match ?x with _ => _ end] => destruct x
      end ].

(** ** Container Controller *)

Section Controller.
Context (w : World).

Lemma run_command_returns (cmd : list string) :
  returns (Compose.run_command w cmd).
Proof. unfold Compose.run_command. effects. Qed.

Lemma run_command_bounded (cmd : list string) :
  logs_only bounded_call (Compose.run_command w cmd).
Proof. unfold Compose.run_command. effects. Qed.

(** What [run_command] makes of each outcome of the subprocess. *)
Lemma run_command_outcome (cmd : list string) (st : state) :
  let st' := {| environ := environ st;
                log := log st ++ [EvSubprocess cmd (Some 60%Z) false] |} in
  Compose.run_command w cmd st
  = (Ret match process_outcome w (log st) cmd with
         | Ret c => (returncode c, stdout c, stderr c)
         | Raise e =>
             if decide (exn_cls e = TimeoutExpired)
             then (1%Z, "", "Command timed out")
             else (1%Z, "", exn_text e)
         end, st').
Proof.
  unfold Compose.run_command, subprocess_run. run_monad.
  destruct (process_outcome w (log st) cmd) as [c|e] eqn:Hout; [done|].
  world_faults. by destruct (decide _).
Qed.

Lemma get_compose_command_returns : returns (Compose.get_compose_command w).
Proof.
  unfold Compose.get_compose_command.
  repeat first [ apply returns_bind; [apply run_command_returns | intros ?]
               | apply returns_ret
               | match goal with
                 | |- context [if ?x then _ else _] => destruct x
                 end ].
Qed.

Lemma get_compose_command_bounded :
  logs_only bounded_call (Compose.get_compose_command w).
Proof.
  unfold Compose.get_compose_command.
  repeat first [ apply logs_only_bind; [apply run_command_bounded | intros ?]
               | apply logs_only_ret
               | match goal with
                 | |- context [if ?x then _ else _] => destruct x
                 end ].
Qed.

Ltac controller :=
  repeat first
    [ apply returns_bind; [first [apply run_command_returns
                                 |apply get_compose_command_returns
                                 |apply returns_emit] | intros ?]
    | apply logs_only_bind; [first [apply run_command_bounded
                                   |apply get_compose_command_bounded
                                   |by apply logs_only_emit] | intros ?]
    | apply returns_ret | apply logs_only_ret
    | match goal with
      | |- context [match ?x with _ => _ end] => destruct x
      end ].

Lemma test_container_up_returns : returns (ContainerUp.test_container_up w).
Proof. unfold ContainerUp.test_container_up, sleep. controller. Qed.

Lemma test_container_up_bounded :
  logs_only bounded_call (ContainerUp.test_container_up w).
Proof. unfold ContainerUp.test_container_up, sleep. controller. Qed.

Lemma test_container_down_returns :
  returns (ContainerDown.test_container_down w).
Proof. unfold ContainerDown.test_container_down, sleep. controller. Qed.

Lemma test_container_down_bounded :
  logs_only bounded_call (ContainerDown.test_container_down w).
Proof. unfold ContainerDown.test_container_down, sleep. controller. Qed.

Lemma detect_compose_cons (cmd : string) (rest : list string) (st : state) :
  DbTest.detect_compose w (cmd :: rest) st
  = match subprocess_run w (split_ws cmd ++ ["version"]) (Some 5%Z) true st
    with
    | (Ret _, st') => (Ret (Some cmd), st')
    | (Raise e, st') =>
        if bool_decide (exn_cls e = CalledProcessError)
           || bool_decide (exn_cls e = TimeoutExpired)
           || bool_decide (exn_cls e = FileNotFoundError)
        then DbTest.detect_compose w rest st'
        else (Raise e, st')
    end.
Proof. reflexivity. Qed.

Lemma detect_compose_bounded (cmds : list string) :
  logs_only bounded_call (DbTest.detect_compose w cmds).
Proof.
  induction cmds as [|cmd rest IH]; [apply logs_only_ret|].
  intros st. rewrite detect_compose_cons.
  destruct (logs_only_subprocess_run bounded_call w
              (split_ws cmd ++ ["version"]) (Some 5%Z) true
              ltac:(simpl; lia) st) as (He & evs & Hl & Hp).
  destruct (subprocess_run w (split_ws cmd ++ ["version"]) (Some 5%Z) true st)
    as [[c|e] st1].
  - split; [done|]. by exists evs.
  - destruct (bool_decide (exn_cls e = CalledProcessError)
              || bool_decide (exn_cls e = TimeoutExpired)
              || bool_decide (exn_cls e = FileNotFoundError)).
    + destruct (IH st1) as (He' & evs' & Hl' & Hp'). simpl in *.
      split; [congruence|]. exists (evs ++ evs').
      split; [by rewrite Hl', Hl, app_assoc | by apply Forall_app].
    + split; [done|]. by exists evs.
Qed.

Lemma ensure_container_running_bounded :
  logs_only bounded_call (DbTest.ensure_container_running w).
Proof.
  unfold DbTest.ensure_container_running, sleep.
  destruct (negb _); [apply logs_only_ret|].
  apply logs_only_bind; [apply detect_compose_bounded|].
  intros [cmd|]; [|apply logs_only_ret].
  effects.
Qed.

(** [ensure_container_running] returns a result whenever the faults of
    the two probes are among those the probing loop catches; faults of the
    later calls are all turned into results. *)
Lemma detect_compose_returns (cmds : list string) :
  (∀ h cmd e, cmd ∈ cmds →
     process_outcome w h (split_ws cmd ++ ["version"]) = Raise e →
     probe_catches e) →
  returns (DbTest.detect_compose w cmds).
Proof.
  induction cmds as [|cmd rest IH]; intros Hcaught st.
  - by eexists _, _.
  - rewrite detect_compose_cons. unfold subprocess_run, log_then.
    destruct (process_outcome w (log st) (split_ws cmd ++ ["version"]))
      as [c|e] eqn:Hout; simpl.
    + destruct (negb (returncode c =? 0)%Z); simpl; [|by eexists _, _].
      apply IH. intros h cmd' e' Hin. apply Hcaught. by right.
    + destruct (Hcaught _ cmd e (list_elem_of_here _ _) Hout) as [-> | [-> | ->]];
        simpl; (apply IH; intros h cmd' e' Hin; apply Hcaught; by right).
Qed.

Lemma ensure_container_running_returns :
  (∀ h cmd e, cmd ∈ ["docker compose"; "docker-compose"] →
     process_outcome w h (split_ws cmd ++ ["version"]) = Raise e →
     probe_catches e) →
  returns (DbTest.ensure_container_running w).
Proof.
  intros Hcaught. unfold DbTest.ensure_container_running, sleep.
  destruct (negb _); [apply returns_ret|].
  apply returns_bind; [by apply detect_compose_returns|].
  intros [cmd|]; [|apply returns_ret].
  unfold sleep. effects.
Qed.

End Controller.

(** ** Configuration errors *)

Section ConfigErrors.
Context (w : World).

Lemma ensure_container_running_shape (st : state) :
  ∃ evs, Forall bounded_call evs
         ∧ (DbTest.ensure_container_running w st).2
           = {| environ := environ st; log := log st ++ evs |}.
Proof.
  destruct (ensure_container_running_bounded w st) as (He & evs & Hl & Hp).
  exists evs. split; [done|].
  destruct (DbTest.ensure_container_running w st) as [r [e l]].
  simpl in *. by subst.
Qed.

(** [load_env_file] on the process environment. *)
Lemma load_env_file_eq (st : state) :
  load_env_file w st
  = let run := Env.run_load_env_file (env_file w) (environ st) in
    (match run.2 with None => Ret tt | Some e => Raise e end,
     {| environ := run.1; log := log st |}).
Proof.
  unfold load_env_file. run_monad.
  by destruct (Env.run_load_env_file _ _) as [loaded [e|]].
Qed.

(** [test_database_connection] once the container check has run. *)
Lemma test_database_connection_after_check (st st1 : state)
    (ok : bool) (msg : string) :
  DbTest.ensure_container_running w st = (Ret (ok, msg), st1) →
  DbTest.test_database_connection w st
  = if negb ok then (Ret (false, "Cannot test connection: " +:+ msg), st1)
    else
      let run := Env.run_load_env_file (env_file w) (environ st1) in
      let st2 := {| environ := run.1; log := log st1 |} in
      match run.2 with
      | Some e => (Raise e, st2)
      | None =>
          match Resolver.get_db_config run.1 with
          | Raise e => (Raise e, st2)
          | Ret config =>
              if is_empty (password config) then
                (Ret (false,
                   "POSTGRES_PASSWORD environment variable is not set or is empty"),
                 st2)
              else if is_empty (user config) then
                (Ret (false, "POSTGRES_USER environment variable is not set"),
                 st2)
              else DbTest.test_connection w config st2
          end
      end.
Proof.
  intros Hrun. unfold DbTest.test_database_connection, bind at 1.
  rewrite Hrun. destruct ok; simpl; [|done].
  unfold bind at 1. rewrite load_env_file_eq. simpl.
  destruct (Env.run_load_env_file _ _) as [loaded [e|]]; simpl; [done|].
  unfold get_db_config. run_monad.
  destruct (Resolver.get_db_config _) as [config|e]; [|done].
  by repeat destruct (is_empty _).
Qed.

(** [main] of the stand-alone script up to the connection test. *)
Lemma conn_script_main_unfold (st : state) :
  ConnScript.main w st
  = let run := Env.run_load_env_file (env_file w) (environ st) in
    let loaded := run.1 in
    let st2 := {| environ := loaded; log := log st |} in
    match run.2 with
    | Some e => (Raise e, st2)
    | None =>
        match Resolver.get_db_config loaded with
        | Raise e => (Raise e, st2)
        | Ret config =>
            if is_empty (password config) then
              (Ret 1%Z,
               {| environ := loaded;
                  log := log st ++
                    [EvPrint Stderr
                       "Error: POSTGRES_PASSWORD environment variable is not set or is empty";
                     EvPrint Stderr
                       "Make sure .env file exists or set POSTGRES_PASSWORD environment variable"]
               |})
            else if is_empty (user config) then
              (Ret 1%Z,
               {| environ := loaded;
                  log := log st ++
                    [EvPrint Stderr
                       "Error: POSTGRES_USER environment variable is not set"] |})
            else
              match ConnScript.test_connection w config st2 with
              | (Ret ok, st3) => (Ret (if ok then 0%Z else 1%Z), st3)
              | (Raise e, st3) => (Raise e, st3)
              end
        end
    end.
Proof.
  unfold ConnScript.main, bind at 1. rewrite load_env_file_eq. simpl.
  destruct (Env.run_load_env_file _ _) as [loaded [e|]]; simpl; [done|].
  unfold get_db_config. run_monad.
  destruct (Resolver.get_db_config _) as [config|e]; [|done].
  destruct (is_empty (password config)).
  { by rewrite <- app_assoc. }
  destruct (is_empty (user config)); [done|].
  by destruct (ConnScript.test_connection w config _) as [[[]|] ?].
Qed.

(** The report of an uncaught [ValueError]. *)
Lemma run_script_value_error (m : M Z) (st st' : state) (e : exn) :
  m st = (Raise e, st') → exn_cls e = ValueError →
  run_script m st
  = (1%Z, {| environ := environ st'; log := log st' ++ [EvTraceback e] |}).
Proof. intros Hrun Hcls. unfold run_script. by rewrite Hrun, Hcls. Qed.

Lemma int_error_class (s : string) : exn_cls (Resolver.int_error s) = ValueError.
Proof. unfold Resolver.int_error. by destruct (int_parse s). Qed.

End ConfigErrors.

(** C4, on the code.  A [POSTGRES_PORT] that [int] rejects makes
    [get_db_config] raise the [ValueError] of [int], once the [.env] file
    was loaded.  In the stand-alone script nothing catches it: the error
    is reported on standard error, the status is 1, and nothing was run
    or connected to before.  In [test_database_connection] the container
    check comes first, with its subprocess calls: when it succeeds the
    [ValueError] leaves the function before any connection is attempted,
    and when it fails the result is the failure of the check and the port
    is not read. *)
Theorem non_numeric_port_is_fatal
    (w : World) (st : state) (p : string) (loaded : gmap string string) :
  environ st !! "POSTGRES_PORT" = Some p →
  py_int p = None →
  Env.run_load_env_file (env_file w) (environ st) = (loaded, None) →
  ConnScript.script w st
  = (1%Z, {| environ := loaded;
             log := log st ++ [EvTraceback (Resolver.int_error p)] |})
  ∧ exn_cls (Resolver.int_error p) = ValueError
  ∧ (∀ msg st1,
       DbTest.ensure_container_running w st = (Ret (true, msg), st1) →
       ∃ calls, Forall bounded_call calls
                ∧ DbTest.test_database_connection w st
                  = (Raise (Resolver.int_error p),
                     {| environ := loaded; log := log st ++ calls |}))
  ∧ (∀ msg st1,
       DbTest.ensure_container_running w st = (Ret (false, msg), st1) →
       DbTest.test_database_connection w st
       = (Ret (false, "Cannot test connection: " +:+ msg), st1)).
Proof.
  intros Hp Hint Hload.
  assert (Resolver.get_db_config loaded = Raise (Resolver.int_error p)) as Hcfg.
  { assert (Env.getenv loaded "POSTGRES_PORT" "5432" = p) as Hport.
    { unfold Env.getenv.
      rewrite (run_load_env_file_returned _ _ _ Hload).
      by rewrite (load_env_file_keeps _ _ _ _ Hp). }
    rewrite get_db_config_raise; by rewrite Hport. }
  split; [|split; [apply int_error_class|split]].
  - unfold ConnScript.script.
    apply (run_script_value_error _ st {| environ := loaded; log := log st |});
      [|apply int_error_class].
    rewrite conn_script_main_unfold, Hload. simpl. by rewrite Hcfg.
  - intros msg st1 Hrun.
    destruct (ensure_container_running_shape w st) as (calls & Hcalls & Hst).
    rewrite Hrun in Hst. simpl in Hst. subst st1.
    exists calls. split; [done|].
    rewrite (test_database_connection_after_check w _ _ _ _ Hrun). simpl.
    rewrite Hload. simpl. by rewrite Hcfg.
  - intros msg st1 Hrun.
    by rewrite (test_database_connection_after_check w _ _ _ _ Hrun).
Qed.

Lemma non_numeric_port_is_fatal_witness :
  ConnScript.script (Examples.world (PyInt 1))
    (Examples.start Examples.bad_port_env)
  = (1%Z, {| environ := Examples.bad_port_env;
             log := [EvTraceback (Resolver.int_error "abc")] |}).
Proof.
  apply (non_numeric_port_is_fatal (Examples.world (PyInt 1))
           (Examples.start Examples.bad_port_env) "abc"
           Examples.bad_port_env);
    reflexivity.
Defined.

(** C4 as stated fails on [test_database_connection]: with a port that
    is not a number, the compose command is probed and the status of the
    container is asked for before the port is read. *)
Lemma port_error_comes_after_subprocess_calls :
  Examples.bad_port_env !! "POSTGRES_PORT" = Some "abc"
  ∧ py_int "abc" = None
  ∧ DbTest.script (Examples.world (PyInt 1))
      (Examples.start Examples.bad_port_env)
    = (1%Z,
       {| environ := Examples.bad_port_env;
          log := [EvSubprocess ["docker"; "compose"; "version"] (Some 5%Z) true;
                  EvSubprocess
                    ["docker"; "compose"; "-f";
                     "/srv/hades/docker-compose.yml";
                     "ps"; "--status"; "running"; "db"] (Some 10%Z) false;
                  EvTraceback
                    (Exn ValueError
                       "invalid literal for int() with base 10: 'abc'")] |}).
Proof. repeat split; vm_compute; reflexivity. Qed.

(** ** A value that is one quote character *)

Lemma strip_quote (q : string) : is_quote q → strip q = q.
Proof. by intros [-> | ->]. Qed.

Lemma strips_lone_quote (q r : string) :
  is_quote q → strips_to q r → r = "".
Proof.
  intros Hq Hr. eapply strips_to_functional; [exact Hr|]. by apply strips_lone.
Qed.

(** C10.  A value that is a lone quote character is read as an opening
    and a closing quote at once and becomes the empty string, in the
    loader (on a line whose key is free and holds no NUL) and in the
    resolver's handling of the password; a [POSTGRES_PASSWORD] that is a
    lone quote is then refused as empty by the stand-alone script (status
    1, the two lines on standard error, nothing connected to) and by
    [test_database_connection] (a failure result), provided the [.env]
    file was loaded and the port can be read. *)
Theorem lone_quote_becomes_empty (q : string) :
  is_quote q →
  (∀ (environ : gmap string string) (K : string),
     contains "=" K = false → strip K ≠ "" →
     startswith "#" (strip K) = false →
     nul_free K →
     environ !! strip K = None →
     Env.run_line environ (K +:+ "=" +:+ q) = Ret (<[strip K := ""]> environ))
  ∧ (∀ (environ : gmap string string) (config : Config),
       environ !! "POSTGRES_PASSWORD" = Some q →
       Resolver.get_db_config environ = Ret config →
       password config = "")
  ∧ (∀ (w : World) (st : state) (loaded : gmap string string),
       environ st !! "POSTGRES_PASSWORD" = Some q →
       Env.run_load_env_file (env_file w) (environ st) = (loaded, None) →
       py_int (Env.getenv loaded "POSTGRES_PORT" "5432") ≠ None →
       ConnScript.script w st
       = (1%Z,
          {| environ := loaded;
             log := log st ++
               [EvPrint Stderr
                  "Error: POSTGRES_PASSWORD environment variable is not set or is empty";
                EvPrint Stderr
                  "Make sure .env file exists or set POSTGRES_PASSWORD environment variable"]
          |})
       ∧ ∀ msg st1,
           DbTest.ensure_container_running w st = (Ret (true, msg), st1) →
           DbTest.test_database_connection w st
           = (Ret (false,
                "POSTGRES_PASSWORD environment variable is not set or is empty"),
              {| environ := loaded; log := log st1 |})).
Proof.
  intros Hq. split; [|split].
  - intros environ K HK Hne Hhash HnK Hfree.
    rewrite (run_line_sets environ K q HK Hne Hhash Hfree), HnK.
    assert (contains "000" q = false) as -> by (by destruct Hq as [-> | ->]).
    simpl. do 2 f_equal.
    apply (strips_lone_quote q); [done|].
    rewrite <- (strip_quote q Hq) at 1. apply loader_quotes_strip.
  - intros environ config Hpw Hcfg.
    apply get_db_config_inv in Hcfg as (_ & _ & _ & Hstrip & _).
    unfold Env.getenv in Hstrip. rewrite Hpw in Hstrip. simpl in Hstrip.
    by apply (strips_lone_quote q).
  - intros w st loaded Hpw Hload Hport.
    assert (loaded !! "POSTGRES_PASSWORD" = Some q) as Hloaded.
    { rewrite (run_load_env_file_returned _ _ _ Hload).
      by apply load_env_file_keeps. }
    destruct (py_int (Env.getenv loaded "POSTGRES_PORT" "5432")) as [p|] eqn:Hp;
      [clear Hport | done].
    destruct (get_db_config_ret loaded p Hp) as (pw & Hstrip & Hcfg).
    unfold Env.getenv in Hstrip at 1. rewrite Hloaded in Hstrip.
    simpl in Hstrip. apply (strips_lone_quote q) in Hstrip; [subst pw | done].
    split.
    + unfold ConnScript.script, run_script. rewrite conn_script_main_unfold.
      rewrite Hload. simpl. by rewrite Hcfg.
    + intros msg st1 Hrun.
      destruct (ensure_container_running_shape w st) as (calls & _ & Hst).
      rewrite Hrun in Hst. simpl in Hst.
      rewrite (test_database_connection_after_check w _ _ _ _ Hrun). simpl.
      assert (environ st1 = environ st) as -> by (by subst st1).
      rewrite Hload. simpl. by rewrite Hcfg.
Qed.

Lemma lone_quote_becomes_empty_witness :
  Env.run_line ∅ "POSTGRES_PASSWORD='"
  = Ret {[ "POSTGRES_PASSWORD" := "" ]}
  ∧ ConnScript.script (Examples.world (PyInt 1))
      (Examples.start Examples.lone_quote_env)
    = (1%Z,
       {| environ := Examples.lone_quote_env;
          log :=
            [EvPrint Stderr
               "Error: POSTGRES_PASSWORD environment variable is not set or is empty";
             EvPrint Stderr
               "Make sure .env file exists or set POSTGRES_PASSWORD environment variable"]
       |}).
Proof.
  destruct (lone_quote_becomes_empty "'" (or_intror eq_refl))
    as (Hload & _ & Hscript).
  split.
  - apply (Hload ∅ "POSTGRES_PASSWORD");
      first [reflexivity | vm_compute; discriminate].
  - apply (Hscript (Examples.world (PyInt 1))
             (Examples.start Examples.lone_quote_env)
             Examples.lone_quote_env); [reflexivity..|].
    vm_compute. discriminate.
Defined.

(** C8, at the input where the code departs from it.  [docker] cannot
    be executed: [subprocess.run] raises [PermissionError], which the
    loop of [ensure_container_running] that probes the compose command
    does not catch, so the exception leaves the function.  On the same
    input [get_compose_command], which goes through [run_command],
    answers that no compose command is available. *)
Theorem ensure_container_running_lets_fault_escape :
  DbTest.ensure_container_running Examples.world_no_permission
    (Examples.start ∅)
  = (Raise (Exn PermissionError "[Errno 13] Permission denied: 'docker'"),
     {| environ := ∅;
        log := [EvSubprocess ["docker"; "compose"; "version"] (Some 5%Z) true]
     |})
  ∧ Compose.get_compose_command Examples.world_no_permission
      (Examples.start ∅)
    = (Ret None,
       {| environ := ∅;
          log := [EvSubprocess ["docker"; "compose"; "version"]
                    (Some 60%Z) false;
                  EvSubprocess ["docker-compose"; "version"]
                    (Some 60%Z) false] |}).
Proof. split; vm_compute; reflexivity. Qed.

(** ** Test Runner *)

Section RunnerFacts.
Context (dir : string).
Implicit Types (tf : Runner.test_file) (st : state).

(** [run_test_case], outcome by outcome. *)
Lemma run_test_case_eq tf st :
  Runner.run_test_case dir tf st
  = let name := Runner.stem (Runner.file_name tf) in
    if negb (Runner.file_has_spec tf) then
      (Ret (name, false,
            "Failed to load test module: " +:+ dir +:+ "/"
            +:+ Runner.file_name tf), st)
    else
      match Runner.file_exec tf st with
      | (Raise e, st1) => caught name e st1
      | (Ret module, st1) =>
          match Runner.find_test_func module name with
          | None =>
              (Ret (name, false, "No test function found in module"), st1)
          | Some test_func =>
              match Runner.call test_func st1 with
              | (Ret (Runner.RetPair success message), st2) =>
                  (Ret (name, success, message), st2)
              | (Ret (Runner.RetOther e), st2)
              | (Raise e, st2) => caught name e st2
              end
          end
      end.
Proof.
  unfold Runner.run_test_case, caught. run_monad.
  destruct (negb (Runner.file_has_spec tf)); [done|].
  destruct (Runner.file_exec tf st) as [[module|e] st1]; [|done].
  destruct (Runner.find_test_func module _) as [f|]; [|done].
  by destruct (Runner.call f st1) as [[[ok msg|e]|e] st2].
Qed.

(** The function that is called is an attribute of the module. *)
Lemma first_test_callable_attr (module : gmap string Runner.attr)
    (names : list string) (f : Runner.attr) :
  Runner.first_test_callable module names = Some f →
  ∃ name, module !! name = Some f.
Proof.
  induction names as [|n names IH]; [done|]. simpl.
  destruct (module !! n) as [a|] eqn:Hn; [|exact IH].
  destruct (startswith "test_" n && Runner.callable a); [|exact IH].
  intros [= <-]. by exists n.
Qed.

Lemma find_test_func_attr (module : gmap string Runner.attr)
    (test_name : string) (f : Runner.attr) :
  Runner.find_test_func module test_name = Some f →
  ∃ name, module !! name = Some f.
Proof.
  unfold Runner.find_test_func.
  destruct (module !! _) as [a|] eqn:Ha.
  - intros [= <-]. by eexists.
  - apply first_test_callable_attr.
Qed.

(** The outcome of [run_test_case] is a result named by the stem of the
    file, or an exception that is not an instance of [Exception]. *)
Lemma run_test_case_outcome tf st :
  (∃ ok msg st',
     Runner.run_test_case dir tf st
     = (Ret (Runner.stem (Runner.file_name tf), ok, msg), st'))
  ∨ (∃ e st',
       Runner.run_test_case dir tf st = (Raise e, st')
       ∧ is_exception e = false).
Proof.
  rewrite run_test_case_eq. unfold caught. simpl.
  destruct (negb (Runner.file_has_spec tf)); [left; by eexists _, _, _|].
  destruct (Runner.file_exec tf st) as [[module|e] st1].
  2:{ destruct (is_exception e) eqn:He;
        [left; by eexists _, _, _ | right; by eexists _, _]. }
  destruct (Runner.find_test_func module _) as [f|];
    [|left; by eexists _, _, _].
  destruct (Runner.call f st1) as [[[ok msg|e]|e] st2];
    [left; by eexists _, _, _ | |];
    (destruct (is_exception e) eqn:He;
       [left; by eexists _, _, _ | right; by eexists _, _]).
Qed.

(** A file whose code raises instances of [Exception] only always gives
    a result. *)
Lemma run_test_case_returns tf st :
  contained tf →
  ∃ ok msg st',
    Runner.run_test_case dir tf st
    = (Ret (Runner.stem (Runner.file_name tf), ok, msg), st').
Proof.
  intros [Hexec Hcall]. rewrite run_test_case_eq. unfold caught. simpl.
  destruct (negb (Runner.file_has_spec tf)); [by eexists _, _, _|].
  destruct (Runner.file_exec tf st) as [[module|e] st1] eqn:Hrun.
  2:{ rewrite (Hexec _ _ _ Hrun). by eexists _, _, _. }
  destruct (Runner.find_test_func module _) as [f|] eqn:Hfind;
    [|by eexists _, _, _].
  destruct (find_test_func_attr _ _ _ Hfind) as [name Hname].
  destruct (Hcall _ _ _ _ _ Hrun Hname) as [Hraise Hunpack].
  destruct (Runner.call f st1) as [[[ok msg|e]|e] st2] eqn:Hf.
  - by eexists _, _, _.
  - rewrite (Hunpack _ _ _ Hf). by eexists _, _, _.
  - rewrite (Hraise _ _ _ Hf). by eexists _, _, _.
Qed.

Lemma run_each_cons tf (rest : list Runner.test_file) st :
  Runner.run_each dir (tf :: rest) st
  = match Runner.run_test_case dir tf
            {| environ := environ st;
               log := log st ++
                 [EvPrint Stdout
                    ("Running: " +:+ Runner.file_name tf +:+ "...")] |}
    with
    | (Ret (name, ok, msg), st1) =>
        match Runner.run_each dir rest
                {| environ := environ st1;
                   log := log st1 ++
                     [EvPrint Stdout
                        ("  [" +:+ (if ok then "PASS" else "FAIL") +:+ "] "
                         +:+ msg);
                      EvPrint Stdout ""] |}
        with
        | (Ret results, st2) => (Ret ((name, ok, msg) :: results), st2)
        | (Raise e, st2) => (Raise e, st2)
        end
    | (Raise e, st1) => (Raise e, st1)
    end.
Proof.
  simpl. run_monad.
  destruct (Runner.run_test_case dir tf _) as [[[[name ok] msg]|e] st1];
    [|done].
  simpl. by rewrite <- app_assoc.
Qed.

(** The loop gives one result per file, in the order of the files, named
    by the stem of the file, unless an exception that is not an instance
    of [Exception] ends it. *)
Lemma run_each_outcome (files : list Runner.test_file) st :
  (∃ results st',
     Runner.run_each dir files st = (Ret results, st')
     ∧ map (λ r, r.1.1) results
       = map (λ tf, Runner.stem (Runner.file_name tf)) files)
  ∨ (∃ e st',
       Runner.run_each dir files st = (Raise e, st')
       ∧ is_exception e = false).
Proof.
  revert st. induction files as [|tf rest IH]; intros st.
  - left. by eexists [], _.
  - rewrite run_each_cons.
    destruct (run_test_case_outcome tf
                {| environ := environ st;
                   log := log st ++
                     [EvPrint Stdout
                        ("Running: " +:+ Runner.file_name tf +:+ "...")] |})
      as [(ok & msg & st1 & ->) | (e & st1 & -> & He)];
      [|right; by eexists _, _].
    destruct (IH {| environ := environ st1;
                    log := log st1 ++
                      [EvPrint Stdout
                         ("  [" +:+ (if ok then "PASS" else "FAIL") +:+ "] "
                          +:+ msg);
                       EvPrint Stdout ""] |})
      as [(results & st2 & -> & Hnames) | (e & st2 & -> & He)];
      [|right; by eexists _, _].
    left. eexists _, _. split; [reflexivity|]. simpl. by rewrite Hnames.
Qed.

(** With files whose code raises instances of [Exception] only, no
    exception leaves the loop. *)
Lemma run_each_returns (files : list Runner.test_file) st :
  Forall contained files →
  ∃ results st',
    Runner.run_each dir files st = (Ret results, st')
    ∧ map (λ r, r.1.1) results
      = map (λ tf, Runner.stem (Runner.file_name tf)) files.
Proof.
  intros Hfiles. revert st.
  induction Hfiles as [|tf rest Htf _ IH]; intros st.
  - by eexists [], _.
  - rewrite run_each_cons.
    destruct (run_test_case_returns tf
                {| environ := environ st;
                   log := log st ++
                     [EvPrint Stdout
                        ("Running: " +:+ Runner.file_name tf +:+ "...")] |}
                Htf)
      as (ok & msg & st1 & ->).
    destruct (IH {| environ := environ st1;
                    log := log st1 ++
                      [EvPrint Stdout
                         ("  [" +:+ (if ok then "PASS" else "FAIL") +:+ "] "
                          +:+ msg);
                       EvPrint Stdout ""] |})
      as (results & st2 & -> & Hnames).
    eexists _, _. split; [reflexivity|]. simpl. by rewrite Hnames.
Qed.

Lemma for_each_log {A} (l : list A) (body : A → M unit) (f : A → event) st :
  (∀ x st0, body x st0
            = (Ret tt, {| environ := environ st0; log := log st0 ++ [f x] |})) →
  Runner.for_each l body st
  = (Ret tt, {| environ := environ st; log := log st ++ map f l |}).
Proof.
  intros Hbody. revert st. induction l as [|x l IH]; intros st; simpl.
  - rewrite app_nil_r. by destruct st.
  - unfold bind. rewrite Hbody, IH. simpl. by rewrite <- app_assoc.
Qed.

Lemma all_passed_count (results : list (string * bool * string)) :
  (length results - Runner.count_passed results =? 0)%nat = true
  ↔ Forall passed results.
Proof.
  unfold Runner.count_passed. rewrite Nat.eqb_eq.
  assert (length (filter (λ r, r.1.2 = true) results) ≤ length results)%nat
    as Hle by apply length_filter.
  split.
  - intros Hz. assert (length (filter (λ r, r.1.2 = true) results)
                       = length results) as Heq by lia.
    clear Hz Hle. induction results as [|r results IH]; [constructor|].
    rewrite filter_cons in Heq. destruct (decide (r.1.2 = true)) as [Hr|Hr].
    + simpl in Heq. constructor; [done|]. apply IH. lia.
    + pose proof (length_filter (λ r, r.1.2 = true) results). simpl in Heq. lia.
  - intros Hall. clear Hle. induction Hall as [|r results Hr Hall IH]; [done|].
    rewrite filter_cons, decide_True by done. simpl. lia.
Qed.

(** [main] when nothing is discovered. *)
Lemma main_no_tests (entries : option (list Runner.test_file)) st :
  Runner.discover_test_cases entries = [] →
  Runner.main dir entries st
  = (Ret 1%Z,
     {| environ := environ st;
        log := log st ++
          [EvPrint Stdout Runner.rule;
           EvPrint Stdout "Running Test Suite";
           EvPrint Stdout Runner.rule;
           EvPrint Stdout "";
           EvPrint Stdout
             "ERROR: No test cases found in test_cases directory"] |}).
Proof.
  intros Hnone. unfold Runner.main. rewrite Hnone. run_monad.
  by rewrite <- !app_assoc.
Qed.

(** [main] when tests are discovered. *)
Lemma main_with_tests (entries : option (list Runner.test_file)) st
    (results : list (string * bool * string)) (st1 : state) :
  let found := Runner.discover_test_cases entries in
  found ≠ [] →
  Runner.run_each dir found
    {| environ := environ st; log := log st ++ announce found |}
  = (Ret results, st1) →
  Runner.main dir entries st
  = (Ret (if decide (Forall passed results) then 0%Z else 1%Z),
     {| environ := environ st1; log := log st1 ++ summary results |}).
Proof.
  intros found Hsome Hrun. unfold Runner.main. fold found.
  destruct found as [|tf rest] eqn:Hfound; [done|]. rewrite <- Hfound in *.
  unfold bind at 1 2 3 4 5. unfold print at 1 2 3 4 5, emit. simpl.
  unfold bind at 1.
  rewrite (for_each_log found _
             (λ tf, EvPrint Stdout ("  - " +:+ Runner.file_name tf)))
    by done.
  unfold bind at 1. unfold print at 1, emit. simpl.
  unfold bind at 1.
  replace (((((((log st ++ [EvPrint Stdout Runner.rule]) ++
           [EvPrint Stdout "Running Test Suite"]) ++
          [EvPrint Stdout Runner.rule]) ++ [EvPrint Stdout ""]) ++
        [EvPrint Stdout
           ("Found " +:+ pretty (length found) +:+ " test case(s):")]) ++
       map (λ tf0, EvPrint Stdout ("  - " +:+ Runner.file_name tf0)) found) ++
      [EvPrint Stdout ""])
    with (log st ++ announce found)
    by (unfold announce; by rewrite <- !app_assoc).
  rewrite Hrun.
  unfold bind at 1 2 3. unfold print at 1 2 3, emit. simpl.
  unfold bind at 1.
  rewrite (for_each_log results _ (λ r, EvSummaryItem r.1.2 r.1.1 r.2))
    by (by intros [[??]?] ?).
  unfold bind, print, emit, ret. simpl.
  f_equal.
  - f_equal. destruct (decide (Forall passed results)) as [Hall|Hall].
    + apply all_passed_count in Hall. by rewrite Hall.
    + destruct (_ =? _)%nat eqn:Hz; [|done].
      by apply all_passed_count in Hz.
  - f_equal. unfold summary. by rewrite <- !app_assoc.
Qed.

(** [main] when an exception leaves the loop over the tests: nothing
    more is printed. *)
Lemma main_escapes (entries : option (list Runner.test_file)) st
    (e : exn) (st1 : state) :
  let found := Runner.discover_test_cases entries in
  found ≠ [] →
  Runner.run_each dir found
    {| environ := environ st; log := log st ++ announce found |}
  = (Raise e, st1) →
  Runner.main dir entries st = (Raise e, st1).
Proof.
  intros found Hsome Hrun. unfold Runner.main. fold found.
  destruct found as [|tf rest] eqn:Hfound; [done|]. rewrite <- Hfound in *.
  unfold bind at 1 2 3 4 5. unfold print at 1 2 3 4 5, emit. simpl.
  unfold bind at 1.
  rewrite (for_each_log found _
             (λ tf, EvPrint Stdout ("  - " +:+ Runner.file_name tf)))
    by done.
  unfold bind at 1. unfold print at 1, emit. simpl.
  unfold bind at 1.
  replace (((((((log st ++ [EvPrint Stdout Runner.rule]) ++
           [EvPrint Stdout "Running Test Suite"]) ++
          [EvPrint Stdout Runner.rule]) ++ [EvPrint Stdout ""]) ++
        [EvPrint Stdout
           ("Found " +:+ pretty (length found) +:+ " test case(s):")]) ++
       map (λ tf0, EvPrint Stdout ("  - " +:+ Runner.file_name tf0)) found) ++
      [EvPrint Stdout ""])
    with (log st ++ announce found)
    by (unfold announce; by rewrite <- !app_assoc).
  by rewrite Hrun.
Qed.

End RunnerFacts.

Global Instance name_le_trans : Transitive Runner.name_le.
Proof. intros a b c. unfold Runner.name_le. apply transitivity. Qed.

Global Instance name_le_total : Total Runner.name_le.
Proof. intros a b. unfold Runner.name_le. apply total, _. Qed.

Section Discovery.
Implicit Types (entries : list Runner.test_file).

Lemma discover_permutation entries :
  Runner.discover_test_cases (Some entries) ≡ₚ filter is_test_case entries.
Proof. unfold Runner.discover_test_cases. apply merge_sort_Permutation. Qed.

Lemma discover_sorted entries :
  StronglySorted Runner.name_le (Runner.discover_test_cases (Some entries)).
Proof. unfold Runner.discover_test_cases. apply StronglySorted_merge_sort; apply _. Qed.

Lemma discover_elem_of entries (tf : Runner.test_file) :
  tf ∈ Runner.discover_test_cases (Some entries)
  ↔ tf ∈ entries ∧ is_test_case tf.
Proof. rewrite discover_permutation, list_elem_of_filter. tauto. Qed.

End Discovery.

(** The derived name is the stem itself when [test_] occurs in the stem
    at its start only. *)
Lemma remove_test_none (s : string) :
  substr_in "test_" s = false → remove_test_go 0 s = s.
Proof.
  induction s as [|c s IH]; [done|].
  change (substr_in "test_" (String c s))
    with (String.prefix "test_" (String c s) || substr_in "test_" s).
  intros [Hp Hs]%orb_false_iff.
  change (remove_test_go 0 (String c s))
    with (if String.prefix "test_" (String c s)
          then remove_test_go 4 s else String c (remove_test_go 0 s)).
  by rewrite Hp, (IH Hs).
Qed.

Lemma derived_name_is_stem (rest : string) :
  substr_in "test_" rest = false →
  "test_" +:+ remove_test ("test_" +:+ rest) = "test_" +:+ rest.
Proof.
  intros H. unfold remove_test. f_equal.
  assert (String.prefix "test_" ("test_" +:+ rest) = true) as Hp
    by (by destruct rest).
  change (remove_test_go 0 ("test_" +:+ rest))
    with (if String.prefix "test_" ("test_" +:+ rest)
          then remove_test_go 0 rest
          else String "t" (remove_test_go 0 ("est_" +:+ rest))).
  rewrite Hp. by apply remove_test_none.
Qed.

(** How [run_test_case] picks the function, and what it answers when
    there is none. *)
Lemma find_test_func_exact (module : gmap string Runner.attr)
    (test_name : string) (f : Runner.attr) :
  module !! ("test_" +:+ remove_test test_name) = Some f →
  Runner.find_test_func module test_name = Some f.
Proof. intros H. unfold Runner.find_test_func. by rewrite H. Qed.

Lemma find_test_func_fallback (module : gmap string Runner.attr)
    (test_name : string) :
  module !! ("test_" +:+ remove_test test_name) = None →
  Runner.find_test_func module test_name
  = Runner.first_test_callable module (Runner.dir module).
Proof. intros H. unfold Runner.find_test_func. by rewrite H. Qed.

Lemma first_test_callable_none (module : gmap string Runner.attr)
    (names : list string) :
  Runner.first_test_callable module names = None
  ↔ ∀ name a, name ∈ names → module !! name = Some a →
              startswith "test_" name = true → Runner.callable a = false.
Proof.
  induction names as [|n names IH]; simpl.
  - split; [by intros _ ? ? ?%elem_of_nil | done].
  - destruct (module !! n) as [a|] eqn:Hn.
    + destruct (startswith "test_" n && Runner.callable a) eqn:Hb.
      * split; [done|]. intros H. apply andb_true_iff in Hb as [Hs Hc].
        specialize (H n a (list_elem_of_here _ _) Hn Hs). congruence.
      * rewrite IH. split.
        -- intros H name a' [-> | Hin]%elem_of_cons Ha Hs; [|by eapply H].
           simplify_eq. by rewrite Hs in Hb.
        -- intros H name a' Hin. apply H. by right.
    + rewrite IH. split.
      * intros H name a' [-> | Hin]%elem_of_cons Ha Hs; [congruence|by eapply H].
      * intros H name a' Hin. apply H. by right.
Qed.

Lemma run_test_case_no_function (dir : string) (tf : Runner.test_file)
    (st st1 : state) (module : gmap string Runner.attr) :
  Runner.file_has_spec tf = true →
  Runner.file_exec tf st = (Ret module, st1) →
  Runner.find_test_func module (Runner.stem (Runner.file_name tf)) = None →
  Runner.run_test_case dir tf st
  = (Ret (Runner.stem (Runner.file_name tf), false,
          "No test function found in module"), st1).
Proof.
  intros Hspec Hexec Hfind. rewrite run_test_case_eq. simpl.
  by rewrite Hspec, Hexec, Hfind.
Qed.

(** C5, at the input where the code departs from it.  For the file
    [test_a_test_b.py] the name looked up is [test_a_b], not
    [test_a_test_b]: every [test_] of the stem is removed, not the one
    at its start only.  The module defines [test_a_test_b], yet the
    runner falls back to the first callable of the sorted names that
    starts with [test_], which is [test_a_helper], and reports what that
    one returns. *)
Theorem run_test_case_drops_interior_prefix :
  "test_" +:+ remove_test (Runner.stem "test_a_test_b.py") = "test_a_b"
  ∧ Runner.run_test_case Examples.test_cases_dir Examples.interior_prefix_file
      (Examples.start ∅)
    = (Ret ("test_a_test_b", false, "the helper ran"), Examples.start ∅).
Proof. split; vm_compute; reflexivity. Qed.

(** C6, on the code.  An exception raised while the module is loaded,
    or by the test function (or by unpacking what it returned), becomes a
    failed Test Result whose message ends with the text of the exception
    when it is an instance of [Exception]; any other exception
    ([SystemExit], [KeyboardInterrupt]) is not caught and leaves
    [run_test_case].  The loop runs the files one after the other, each
    by [run_test_case] from the state the files before it left, and
    collects their results; an exception that left [run_test_case] ends
    the loop and the runner, and the files after it are not run.  With
    files whose code raises instances of [Exception] only, the loop gives
    a result for every file.  The status of the runner is 0 when tests
    were found and all their results passed, and 1 when a result failed;
    with no test found it prints the error line and the status is 1; when
    [SystemExit] left the loop the status is the one [sys.exit] was
    called with (an integer, of which the parent process sees the low
    eight bits), and no summary is printed. *)
Theorem runner_contains_failures (dir : string) :
  (∀ tf st e st1,
     Runner.file_has_spec tf = true →
     Runner.file_exec tf st = (Raise e, st1) →
     Runner.run_test_case dir tf st
     = if is_exception e
       then (Ret (Runner.stem (Runner.file_name tf), false,
                  "Test execution error: " +:+ exn_text e), st1)
       else (Raise e, st1))
  ∧ (∀ tf st module st1 test_func e st2,
       Runner.file_has_spec tf = true →
       Runner.file_exec tf st = (Ret module, st1) →
       Runner.find_test_func module (Runner.stem (Runner.file_name tf))
       = Some test_func →
       Runner.call test_func st1 = (Raise e, st2)
       ∨ Runner.call test_func st1 = (Ret (Runner.RetOther e), st2) →
       Runner.run_test_case dir tf st
       = if is_exception e
         then (Ret (Runner.stem (Runner.file_name tf), false,
                    "Test execution error: " +:+ exn_text e), st2)
         else (Raise e, st2))
  ∧ (∀ tf rest st,
       Runner.run_each dir (tf :: rest) st
       = match Runner.run_test_case dir tf
                 (logged st
                    [EvPrint Stdout
                       ("Running: " +:+ Runner.file_name tf +:+ "...")])
         with
         | (Ret (name, ok, msg), st1) =>
             match Runner.run_each dir rest
                     (logged st1
                        [EvPrint Stdout
                           ("  [" +:+ (if ok then "PASS" else "FAIL")
                            +:+ "] " +:+ msg);
                         EvPrint Stdout ""])
             with
             | (Ret results, st2) => (Ret ((name, ok, msg) :: results), st2)
             | (Raise e, st2) => (Raise e, st2)
             end
         | (Raise e, st1) => (Raise e, st1)
         end)
  ∧ (∀ files st,
       Forall contained files →
       ∃ results st',
         Runner.run_each dir files st = (Ret results, st')
         ∧ map (λ r, r.1.1) results
           = map (λ tf, Runner.stem (Runner.file_name tf)) files)
  ∧ (∀ entries st,
       let found := Runner.discover_test_cases entries in
       let st0 := logged st (announce found) in
       (found = [] →
        Runner.script dir entries st
        = (1%Z,
           logged st
             [EvPrint Stdout Runner.rule;
              EvPrint Stdout "Running Test Suite";
              EvPrint Stdout Runner.rule;
              EvPrint Stdout "";
              EvPrint Stdout
                "ERROR: No test cases found in test_cases directory"]))
       ∧ (found ≠ [] →
          ∀ results st1,
            Runner.run_each dir found st0 = (Ret results, st1) →
            Runner.script dir entries st
            = (if decide (Forall passed results) then 0%Z else 1%Z,
               logged st1 (summary results)))
       ∧ (found ≠ [] →
          ∀ e st1,
            Runner.run_each dir found st0 = (Raise e, st1) →
            is_exception e = false
            ∧ Runner.main dir entries st = (Raise e, st1)
            ∧ ∀ n, exn_cls e = SystemExit n →
                   Runner.script dir entries st = (exit_status n, st1))).
Proof.
  split; [|split; [|split; [|split]]].
  - intros tf st e st1 Hspec Hexec.
    rewrite run_test_case_eq. simpl. by rewrite Hspec, Hexec.
  - intros tf st module st1 f e st2 Hspec Hexec Hfind Hcall.
    rewrite run_test_case_eq. simpl. rewrite Hspec, Hexec, Hfind. simpl.
    by destruct Hcall as [-> | ->].
  - intros tf rest st. apply run_each_cons.
  - intros files st Hfiles. by apply run_each_returns.
  - intros entries st found st0. split; [|split].
    + intros Hnone. unfold Runner.script, run_script.
      by rewrite main_no_tests.
    + intros Hsome results st1 Hrun.
      unfold Runner.script, run_script.
      by rewrite (main_with_tests dir entries st results st1 Hsome Hrun).
    + intros Hsome e st1 Hrun.
      assert (is_exception e = false) as He.
      { destruct (run_each_outcome dir found st0)
          as [(results & st' & Hret & _) | (e' & st' & Hraise & He)];
          congruence. }
      split; [done|].
      pose proof (main_escapes dir entries st e st1 Hsome Hrun) as Hmain.
      split; [done|]. intros n Hn.
      unfold Runner.script, run_script. by rewrite Hmain, Hn.
Qed.

Lemma runner_contains_failures_witness :
  Runner.run_test_case Examples.test_cases_dir Examples.broken_file
    (Examples.start ∅)
  = (Ret ("test_broken", false,
          "Test execution error: No module named 'asyncpg'"),
     Examples.start ∅)
  ∧ (Runner.script Examples.test_cases_dir
       (Some [Examples.passing_file; Examples.readme_file;
              Examples.broken_file])
       (Examples.start ∅)).1 = 1%Z
  ∧ Runner.script Examples.test_cases_dir (Some [Examples.readme_file])
      (Examples.start ∅)
    = (1%Z,
       {| environ := ∅;
          log := [EvPrint Stdout Runner.rule;
                  EvPrint Stdout "Running Test Suite";
                  EvPrint Stdout Runner.rule;
                  EvPrint Stdout "";
                  EvPrint Stdout
                    "ERROR: No test cases found in test_cases directory"] |}).
Proof.
  destruct (runner_contains_failures Examples.test_cases_dir)
    as (Hload & _ & _ & _ & Hexit).
  split; [|split].
  - apply (Hload Examples.broken_file (Examples.start ∅)
             (Exn OtherException "No module named 'asyncpg'")
             (Examples.start ∅)); reflexivity.
  - destruct (Hexit (Some [Examples.passing_file; Examples.readme_file;
                           Examples.broken_file]) (Examples.start ∅))
      as (_ & Hsome & _).
    rewrite (Hsome ltac:(vm_compute; discriminate)
               [("test_broken", false,
                 "Test execution error: No module named 'asyncpg'");
                ("test_python_version", true, "ok")]
               (Runner.run_each Examples.test_cases_dir
                  [Examples.broken_file; Examples.passing_file]
                  (logged (Examples.start ∅)
                     (announce [Examples.broken_file;
                                Examples.passing_file]))).2);
      [|vm_compute; reflexivity].
    reflexivity.
  - apply (Hexit (Some [Examples.readme_file]) (Examples.start ∅)).
    reflexivity.
Defined.

(** C6 as stated fails on a test that calls [sys.exit(7)]: the
    exception is not caught and there is no failed Test Result for the
    file; the runner ends with status 7, which is neither 0 nor 1, before
    the file after it is run and without a summary. *)
Lemma sys_exit_in_test_leaves_runner :
  Runner.run_test_case Examples.test_cases_dir Examples.exiting_file
    (Examples.start ∅)
  = (Raise (Exn (SystemExit 7) "7"), Examples.start ∅)
  ∧ Runner.discover_test_cases
      (Some [Examples.passing_file; Examples.exiting_file])
    = [Examples.exiting_file; Examples.passing_file]
  ∧ Runner.script Examples.test_cases_dir
      (Some [Examples.passing_file; Examples.exiting_file])
      (Examples.start ∅)
    = (7%Z,
       {| environ := ∅;
          log := announce [Examples.exiting_file; Examples.passing_file]
                 ++ [EvPrint Stdout "Running: test_exit.py..."] |}).
Proof. repeat split; vm_compute; reflexivity. Qed.

(** The example files whose code raises instances of [Exception]
    only. *)
Lemma passing_file_contained : contained Examples.passing_file.
Proof.
  split.
  - intros st e st' Hrun. discriminate Hrun.
  - intros st module st1 name a Hrun Hname. injection Hrun as <- <-.
    apply lookup_singleton_Some in Hname as [<- <-].
    split; intros st2 e st3 Hcall; discriminate Hcall.
Qed.

Lemma broken_file_contained : contained Examples.broken_file.
Proof.
  split.
  - intros st e st' Hrun. by injection Hrun as <- _.
  - intros st module st1 name a Hrun. discriminate Hrun.
Qed.

(** C7, on the code.  Discovery returns the entries of the directory
    that are regular files, have the suffix [.py] and a name that starts
    with [test_], each as often as the directory lists it, in the order
    of their names; a directory that does not exist gives none.  When
    the code of the discovered files raises instances of [Exception]
    only, the runner gives one Test Result per discovered file, named by
    the stem of the file, in that order, and these are the results it
    summarises.  In general the loop over the files either gives these
    results or is left by an exception that is not an instance of
    [Exception], and then the runner gives no result at all. *)
Theorem discovery_sorted_one_result_each
    (dir : string) (entries : list Runner.test_file) (st : state) :
  let found := Runner.discover_test_cases (Some entries) in
  let st0 := {| environ := environ st; log := log st ++ announce found |} in
  StronglySorted Runner.name_le found
  ∧ found ≡ₚ filter is_test_case entries
  ∧ (∀ tf, tf ∈ found ↔ tf ∈ entries ∧ is_test_case tf)
  ∧ Runner.discover_test_cases None = []
  ∧ (Forall contained found →
     ∃ results st1,
       Runner.run_each dir found st0 = (Ret results, st1)
       ∧ map (λ r, r.1.1) results
         = map (λ tf, Runner.stem (Runner.file_name tf)) found
       ∧ (found ≠ [] →
          ∃ status,
            Runner.main dir (Some entries) st
            = (Ret status,
               {| environ := environ st1;
                  log := log st1 ++ summary results |})))
  ∧ ((∃ results st1,
        Runner.run_each dir found st0 = (Ret results, st1)
        ∧ map (λ r, r.1.1) results
          = map (λ tf, Runner.stem (Runner.file_name tf)) found)
     ∨ (∃ e st1,
          Runner.run_each dir found st0 = (Raise e, st1)
          ∧ is_exception e = false
          ∧ (found ≠ [] →
             Runner.main dir (Some entries) st = (Raise e, st1)))).
Proof.
  intros found st0.
  split; [apply discover_sorted|].
  split; [apply discover_permutation|].
  split; [apply discover_elem_of|].
  split; [done|].
  split.
  - intros Hfound.
    destruct (run_each_returns dir found st0 Hfound)
      as (results & st1 & Hrun & Hnames).
    exists results, st1. split; [done|]. split; [done|].
    intros Hsome. eexists.
    by rewrite (main_with_tests dir (Some entries) st results st1 Hsome Hrun).
  - destruct (run_each_outcome dir found st0)
      as [(results & st1 & Hrun & Hnames) | (e & st1 & Hrun & He)].
    + left. by exists results, st1.
    + right. exists e, st1. split; [done|]. split; [done|].
      intros Hsome. by apply (main_escapes dir (Some entries) st e st1).
Qed.

Lemma discovery_sorted_one_result_each_witness :
  Runner.discover_test_cases
    (Some [Examples.passing_file; Examples.readme_file; Examples.broken_file])
  = [Examples.broken_file; Examples.passing_file]
  ∧ ∃ results st1,
      Runner.run_each Examples.test_cases_dir
        [Examples.broken_file; Examples.passing_file]
        {| environ := ∅;
           log := announce [Examples.broken_file; Examples.passing_file] |}
      = (Ret results, st1)
      ∧ map (λ r, r.1.1) results = ["test_broken"; "test_python_version"].
Proof.
  split; [reflexivity|].
  destruct (discovery_sorted_one_result_each Examples.test_cases_dir
              [Examples.passing_file; Examples.readme_file;
               Examples.broken_file] (Examples.start ∅))
    as (_ & _ & _ & _ & Hresults & _).
  destruct Hresults as (results & st1 & Hrun & Hnames & _).
  { change (Forall contained [Examples.broken_file; Examples.passing_file]).
    apply List.Forall_cons; [apply broken_file_contained|].
    apply List.Forall_cons; [apply passing_file_contained|].
    apply List.Forall_nil. }
  exists results, st1. split; [exact Hrun | exact Hnames].
Defined.

(** C7 as stated fails on a test file that calls [sys.exit(1)] when it
    is executed as a module: two files are discovered, and the runner
    gives a Test Result for neither; it ends with the status of
    [sys.exit] after the line that announces the first file. *)
Lemma module_exit_leaves_no_results :
  Runner.discover_test_cases
    (Some [Examples.passing_file; Examples.exits_on_import_file])
  = [Examples.exits_on_import_file; Examples.passing_file]
  ∧ Runner.run_each Examples.test_cases_dir
      [Examples.exits_on_import_file; Examples.passing_file]
      (logged (Examples.start ∅)
         (announce [Examples.exits_on_import_file; Examples.passing_file]))
    = (Raise (Exn (SystemExit 1) "1"),
       {| environ := ∅;
          log := announce [Examples.exits_on_import_file;
                           Examples.passing_file]
                 ++ [EvPrint Stdout "Running: test_cleanup.py..."] |})
  ∧ Runner.script Examples.test_cases_dir
      (Some [Examples.passing_file; Examples.exits_on_import_file])
      (Examples.start ∅)
    = (1%Z,
       {| environ := ∅;
          log := announce [Examples.exits_on_import_file;
                           Examples.passing_file]
                 ++ [EvPrint Stdout "Running: test_cleanup.py..."] |}).
Proof. repeat split; vm_compute; reflexivity. Qed.

(** ** More on the Environment Loader *)

Section LoaderAsUnion.
Implicit Types (environ : gmap string string) (lines : list string).

Lemma union_insert_taken environ (m : gmap string string)
    (key value : string) :
  environ !! key ≠ None → environ ∪ <[key := value]> m = environ ∪ m.
Proof.
  intros Hset. apply map_eq. intros k.
  rewrite !lookup_union. destruct (decide (key = k)) as [<- | Hne].
  - rewrite lookup_insert_eq. destruct (environ !! key); [|done].
    by destruct (m !! key).
  - by rewrite lookup_insert_ne.
Qed.

Lemma load_lines_union lines environ :
  foldl Env.load_line environ lines
  = environ ∪ list_to_map (file_bindings lines).
Proof.
  revert environ. induction lines as [|line lines IH]; intros environ; simpl.
  - unfold file_bindings. simpl. by rewrite (right_id_L ∅ (∪)).
  - rewrite IH, load_line_binding. unfold file_bindings. simpl.
    destruct (line_binding line) as [[key value]|]; [|done]. simpl.
    case_bool_decide as Hfree.
    + rewrite <- insert_union_l. by rewrite insert_union_r.
    + by rewrite union_insert_taken.
Qed.

(** The loop is not ended by an exception when no binding of the file
    holds a NUL. *)
Lemma run_lines_bindings_nul_free lines environ :
  Forall (λ b, nul_free b.1 ∧ nul_free b.2) (file_bindings lines) →
  Env.run_lines environ lines = (foldl Env.load_line environ lines, None).
Proof.
  revert environ. induction lines as [|line lines IH]; intros environ; [done|].
  unfold file_bindings. simpl. intros Hfree.
  rewrite run_line_binding, load_line_binding.
  destruct (line_binding line) as [[key value]|]; simpl in *;
    [|by apply IH].
  apply Forall_cons in Hfree as [[Hk Hv] Hfree].
  unfold nul_free in Hk, Hv. simpl in Hk, Hv.
  case_bool_decide; [|by apply IH].
  unfold Env.assign. rewrite Hk, Hv. simpl. by apply IH.
Qed.

End LoaderAsUnion.

(** X1.  When [load_env_file] returns, the environment is the union
    of the environment before with the bindings of the file, in which the
    environment wins over the file and an earlier line wins over a later
    one; a missing file adds nothing.  It returns whenever no binding of
    the file holds a NUL in its key or its value. *)
Theorem load_env_file_is_union
    (file : option (list string)) (environ : gmap string string) :
  let bindings := file_bindings (default [] file) in
  (∀ loaded,
     Env.run_load_env_file file environ = (loaded, None) →
     loaded = environ ∪ list_to_map bindings)
  ∧ (Forall (λ b, nul_free b.1 ∧ nul_free b.2) bindings →
     Env.run_load_env_file file environ
     = (environ ∪ list_to_map bindings, None)).
Proof.
  intros bindings. subst bindings.
  assert (Env.load_env_file file environ
          = environ ∪ list_to_map (file_bindings (default [] file))) as Hunion.
  { destruct file as [lines|]; simpl.
    - apply load_lines_union.
    - unfold file_bindings. simpl. by rewrite (right_id_L ∅ (∪)). }
  split.
  - intros loaded Hrun. rewrite <- Hunion.
    by apply run_load_env_file_returned.
  - intros Hfree. rewrite <- Hunion.
    destruct file as [lines|]; simpl in *; [|done].
    by apply run_lines_bindings_nul_free.
Qed.

Lemma load_env_file_is_union_witness :
  Env.run_load_env_file (Some MoreExamples.nested_quotes_file)
    {[ "HOME" := "/root" ]}
  = ({[ "HOME" := "/root" ]}
     ∪ list_to_map (file_bindings MoreExamples.nested_quotes_file), None).
Proof.
  apply (load_env_file_is_union (Some MoreExamples.nested_quotes_file)
           {[ "HOME" := "/root" ]}).
  apply (bool_decide_unpack _). vm_compute. exact I.
Defined.


(** ** More on the Config Resolver and the validation of the config *)

Section Validation.

Lemma strips_to_empty (v : string) :
  strips_to v "" ↔ only_quotes v.
Proof.
  split.
  - inversion 1 as [q inner Hq Hv Hinner | q Hq | v' Hv]; subst.
    + right. right. exists q. split; [done|].
      destruct Hq as [-> | ->]; reflexivity.
    + right. by left.
    + by left.
  - intros [-> | [Hq | (q & Hq & ->)]].
    + apply strips_plain. intros (q & [-> | ->] & Hs & _); discriminate Hs.
    + by apply strips_lone.
    + replace (q +:+ q) with (q +:+ "" +:+ q)
        by (destruct Hq as [-> | ->]; reflexivity).
      by apply strips_pair.
Qed.


End Validation.

(** X3.  When the two checks of the config fire: the password of the
    config is empty exactly when [POSTGRES_PASSWORD] is unset, empty, one
    quote character or two equal quote characters (a password of blanks
    passes); the user of the config is empty exactly when
    [POSTGRES_USER] is set to the empty string, so an unset
    [POSTGRES_USER] is never reported: it is [hades]. *)
Theorem config_checks_fire_iff
    (environ : gmap string string) (config : Config) :
  Resolver.get_db_config environ = Ret config →
  (password config = ""
   ↔ environ !! "POSTGRES_PASSWORD" = None
     ∨ ∃ v, environ !! "POSTGRES_PASSWORD" = Some v ∧ only_quotes v)
  ∧ (user config = "" ↔ environ !! "POSTGRES_USER" = Some "").
Proof.
  intros (_ & _ & Hu & Hpw & _)%get_db_config_inv.
  unfold Env.getenv in *. split.
  - destruct (environ !! "POSTGRES_PASSWORD") as [v|] eqn:Hv; simpl in *.
    + split.
      * intros Hempty. rewrite Hempty in Hpw. right. exists v.
        split; [done|]. by apply strips_to_empty.
      * intros [? | (v' & [= <-] & Hq)]; [done|].
        apply strips_to_empty in Hq. by eapply strips_to_functional.
    + split; [by left|]. intros _.
      eapply strips_to_functional; [exact Hpw|]. by apply strips_to_empty; left.
  - rewrite Hu. destruct (environ !! "POSTGRES_USER") as [u|]; simpl.
    + split; [by intros -> | by intros [= ->]].
    + split; discriminate.
Qed.

Lemma config_checks_fire_iff_witness :
  (password MoreExamples.blank_config = ""
   ↔ MoreExamples.blank_env !! "POSTGRES_PASSWORD" = None
     ∨ ∃ v, MoreExamples.blank_env !! "POSTGRES_PASSWORD" = Some v
            ∧ only_quotes v)
  ∧ (user MoreExamples.blank_config = ""
     ↔ MoreExamples.blank_env !! "POSTGRES_USER" = Some "").
Proof.
  apply (config_checks_fire_iff MoreExamples.blank_env
           MoreExamples.blank_config).
  reflexivity.
Defined.



(** ** More on the connection test and its callers *)

Section CheckerFacts.
Context (w : World).

(** The events of one connection test. *)
Lemma db_test_connection_eq (config : Config) (st : state) :
  DbTest.test_connection w config st
  = let h := log st in
    match connect_outcome w h config with
    | Some e =>
        (Ret (false, failure_text "Database connection failed: " e),
         {| environ := environ st; log := h ++ [EvConnect config] |})
    | None =>
        let st3 := {| environ := environ st;
                      log := h ++ [EvConnect config; EvFetchval "SELECT 1;";
                                   EvClose] |} in
        match close_outcome w ((h ++ [EvConnect config])
                               ++ [EvFetchval "SELECT 1;"]) with
        | Some e =>
            (Ret (false, failure_text "Database connection failed: " e), st3)
        | None =>
            match fetchval_outcome w (h ++ [EvConnect config]) "SELECT 1;" with
            | Raise e =>
                (Ret (false, failure_text "Database connection failed: " e),
                 st3)
            | Ret v =>
                (Ret (if py_eq_1 v
                      then (true,
                            "Successfully connected to " +:+ describe config)
                      else (false,
                            "Connection succeeded but query returned unexpected result")),
                 st3)
            end
        end
    end.
Proof.
  unfold DbTest.test_connection, connect, fetchval, close, failure_text.
  run_monad.
  destruct (connect_outcome w (log st) config) as [ec|] eqn:Hc; simpl.
  { world_faults. by destruct (decide (exn_cls ec = PostgresError)). }
  destruct (fetchval_outcome w (log st ++ [EvConnect config]) "SELECT 1;")
    as [v|ef] eqn:Hf; simpl;
  destruct (close_outcome w
              ((log st ++ [EvConnect config]) ++ [EvFetchval "SELECT 1;"]))
    as [ecl|] eqn:Hcl; simpl;
  repeat match goal with
         | |- context [py_eq_1 ?v] => destruct (py_eq_1 v); simpl
         | |- context [decide (exn_cls ?e = PostgresError)] =>
             destruct (decide (exn_cls e = PostgresError)); simpl
         | _ => progress (rewrite ?Hf, ?Hcl; simpl)
         | _ => progress world_faults
         end;
  by rewrite <- ?app_assoc.
Qed.

Lemma conn_script_test_connection_eq (config : Config) (st : state) :
  ConnScript.test_connection w config st
  = let h := log st in
    match db_fault w h config with
    | None =>
        (Ret true,
         {| environ := environ st;
            log := h ++ [EvConnect config; EvFetchval "SELECT 1;"; EvClose;
                         EvPrint Stdout
                           ("Connection successful to " +:+ describe config)]
         |})
    | Some e =>
        (Ret false,
         {| environ := environ st;
            log := h ++ (match connect_outcome w h config with
                         | Some _ => [EvConnect config]
                         | None => [EvConnect config; EvFetchval "SELECT 1;";
                                    EvClose]
                         end)
                     ++ [EvPrint Stdout (failure_text "Connection failed: " e)]
         |})
    end.
Proof.
  unfold ConnScript.test_connection, connect, fetchval, close, failure_text,
    db_fault.
  run_monad.
  destruct (connect_outcome w (log st) config) as [ec|] eqn:Hc; simpl.
  { world_faults. destruct (decide (exn_cls ec = PostgresError)); simpl;
      by rewrite <- ?app_assoc. }
  destruct (fetchval_outcome w (log st ++ [EvConnect config]) "SELECT 1;")
    as [v|ef] eqn:Hf; simpl;
  destruct (close_outcome w
              ((log st ++ [EvConnect config]) ++ [EvFetchval "SELECT 1;"]))
    as [ecl|] eqn:Hcl; simpl;
  repeat match goal with
         | |- context [decide (exn_cls ?e = PostgresError)] =>
             destruct (decide (exn_cls e = PostgresError)); simpl
         | _ => progress (rewrite ?Hf, ?Hcl; simpl)
         | _ => progress world_faults
         end;
  by rewrite <- ?app_assoc.
Qed.

End CheckerFacts.

(** The status of a script that did not end by [SystemExit]. *)
Lemma run_script_status (m : M Z) (st : state) :
  (∀ e st', m st = (Raise e, st') → is_exception e = true) →
  run_script m st
  = match m st with
    | (Ret status, st') => (status, st')
    | (Raise e, st') => (1%Z, logged st' [EvTraceback e])
    end.
Proof.
  intros Hm. unfold run_script.
  destruct (m st) as [[status|e] st'] eqn:Hrun; [done|].
  specialize (Hm e st' eq_refl). unfold is_exception in Hm.
  by destruct (exn_cls e).
Qed.

Lemma assign_raises (environ : gmap string string) (key value : string)
    (e : exn) :
  Env.assign environ key value = Raise e → is_exception e = true.
Proof. unfold Env.assign. destruct (_ || _); [|done]. by intros [= <-]. Qed.

Lemma run_load_env_file_raises (file : option (list string))
    (environ : gmap string string) (e : exn) :
  (Env.run_load_env_file file environ).2 = Some e → is_exception e = true.
Proof.
  destruct file as [lines|]; [|done]. simpl. revert environ.
  induction lines as [|l lines IH]; intros environ; [done|]. simpl.
  destruct (Env.run_line environ l) as [environ'|e'] eqn:Hline; [apply IH|].
  simpl. intros [= <-].
  rewrite run_line_binding in Hline.
  destruct (line_binding l) as [[key value]|]; [|done].
  case_bool_decide; [|done]. by eapply assign_raises.
Qed.

Lemma get_db_config_raises (environ : gmap string string) (e : exn) :
  Resolver.get_db_config environ = Raise e → is_exception e = true.
Proof.
  unfold Resolver.get_db_config. destruct (py_int _); [done|].
  intros [= <-]. unfold is_exception. by rewrite int_error_class.
Qed.

Lemma conn_script_main_raises (w : World) (st st' : state) (e : exn) :
  ConnScript.main w st = (Raise e, st') → is_exception e = true.
Proof.
  rewrite conn_script_main_unfold. simpl.
  destruct (Env.run_load_env_file (env_file w) (environ st))
    as [loaded [e0|]] eqn:Hload; simpl.
  { intros [= <- _].
    apply (run_load_env_file_raises (env_file w) (environ st)).
    by rewrite Hload. }
  destruct (Resolver.get_db_config loaded) as [config|e0] eqn:Hcfg;
    [|intros [= <- _]; by eapply get_db_config_raises].
  destruct (is_empty (password config)); [done|].
  destruct (is_empty (user config)); [done|].
  rewrite conn_script_test_connection_eq. simpl.
  by destruct (db_fault w (log st) config).
Qed.

(** X5.  The stand-alone script ends with status 0 or 1, with the
    environment the loader left; the status is 0 exactly when the loader
    was not stopped by an exception, the config could be built, its
    password and its user are not empty, and connecting, querying and
    closing raised nothing. *)
Theorem conn_script_status (w : World) (st : state) :
  let run := Env.run_load_env_file (env_file w) (environ st) in
  ∃ status st',
    ConnScript.script w st = (status, st')
    ∧ environ st' = run.1
    ∧ (status = 0%Z ∨ status = 1%Z)
    ∧ (status = 0%Z
       ↔ run.2 = None
         ∧ ∃ config,
             Resolver.get_db_config run.1 = Ret config
             ∧ password config ≠ "" ∧ user config ≠ ""
             ∧ db_fault w (log st) config = None).
Proof.
  intros run. unfold ConnScript.script.
  rewrite run_script_status by (intros e st'; apply conn_script_main_raises).
  rewrite conn_script_main_unfold. fold run. clearbody run.
  destruct run as [loaded [e0|]]; simpl.
  { eexists _, _. split; [reflexivity|]. split; [done|]. split; [by right|].
    split; [done|]. by intros [? _]. }
  destruct (Resolver.get_db_config loaded) as [config|e] eqn:Hcfg.
  2:{ eexists _, _. split; [reflexivity|]. split; [done|]. split; [by right|].
      split; [done|]. by intros (_ & ? & ? & _). }
  destruct (is_empty (password config)) eqn:Hpw.
  { eexists _, _. split; [reflexivity|]. split; [done|]. split; [by right|].
    split; [done|]. intros (_ & c & [= <-] & Hne & _).
    by apply is_empty_true in Hpw. }
  destruct (is_empty (user config)) eqn:Hu.
  { eexists _, _. split; [reflexivity|]. split; [done|]. split; [by right|].
    split; [done|]. intros (_ & c & [= <-] & _ & Hne & _).
    by apply is_empty_true in Hu. }
  apply is_empty_false in Hpw, Hu.
  rewrite conn_script_test_connection_eq. simpl.
  destruct (db_fault w (log st) config) as [e|] eqn:Hfault.
  - eexists _, _. split; [reflexivity|]. split; [done|]. split; [by right|].
    split; [done|]. intros (_ & c & [= <-] & _ & _ & Hnone). congruence.
  - eexists _, _. split; [reflexivity|]. split; [done|]. split; [by left|].
    split; [|done]. intros _. split; [done|]. by exists config.
Qed.

(** X6.  [test_database_connection] reports success only when the
    container check succeeded, the config could be built from the
    environment with the [.env] file loaded, its password and user are
    not empty, the connection opened, the query gave 1 and the
    connection closed; the message then names the user, host, port and
    database. *)
Theorem test_database_connection_success
    (w : World) (st st' : state) (msg : string) :
  DbTest.test_database_connection w st = (Ret (true, msg), st') →
  ∃ check_msg st1 config,
    DbTest.ensure_container_running w st = (Ret (true, check_msg), st1)
    ∧ Resolver.get_db_config
        (Env.load_env_file (env_file w) (environ st)) = Ret config
    ∧ password config ≠ "" ∧ user config ≠ ""
    ∧ db_fault w (log st1) config = None
    ∧ fetchval_outcome w (log st1 ++ [EvConnect config]) "SELECT 1;"
      = Ret (PyInt 1)
    ∧ msg = "Successfully connected to " +:+ describe config
    ∧ st' = {| environ := Env.load_env_file (env_file w) (environ st);
               log := log st1 ++ [EvConnect config; EvFetchval "SELECT 1;";
                                  EvClose] |}.
Proof.
  intros Hrun.
  destruct (DbTest.ensure_container_running w st) as [[[ok cmsg]|e] st1]
    eqn:Hcheck.
  2:{ unfold DbTest.test_database_connection, bind in Hrun.
      by rewrite Hcheck in Hrun. }
  rewrite (test_database_connection_after_check w _ _ _ _ Hcheck) in Hrun.
  destruct ok; simpl in Hrun; [|done].
  assert (environ st1 = environ st) as Henv.
  { destruct (ensure_container_running_shape w st) as (calls & _ & Hst).
    rewrite Hcheck in Hst. simpl in Hst. by subst st1. }
  rewrite Henv in Hrun.
  destruct (Env.run_load_env_file (env_file w) (environ st))
    as [loaded [e|]] eqn:Hload; simpl in Hrun; [done|].
  rewrite <- (run_load_env_file_returned _ _ _ Hload).
  destruct (Resolver.get_db_config _) as [config|e] eqn:Hcfg; [|done].
  destruct (is_empty (password config)) eqn:Hpw; [done|].
  destruct (is_empty (user config)) eqn:Hu; [done|].
  apply is_empty_false in Hpw, Hu.
  rewrite db_test_connection_eq in Hrun. simpl in Hrun.
  exists cmsg, st1, config. unfold db_fault.
  destruct (connect_outcome w (log st1) config); [done|].
  destruct (close_outcome w _) eqn:Hcl; [done|].
  destruct (fetchval_outcome w _ _) as [v|] eqn:Hf; [|done].
  destruct (py_eq_1 v) eqn:Hv; [|done].
  apply py_eq_1_true in Hv as ->. by simplify_eq.
Qed.

Lemma test_database_connection_success_witness :
  ∃ check_msg st1 config,
    DbTest.ensure_container_running (Examples.world (PyInt 1))
      (Examples.start {[ "POSTGRES_PASSWORD" := "secret" ]})
    = (Ret (true, check_msg), st1)
    ∧ password config = "secret".
Proof.
  destruct (test_database_connection_success (Examples.world (PyInt 1))
              (Examples.start {[ "POSTGRES_PASSWORD" := "secret" ]})
              {| environ := {[ "POSTGRES_PASSWORD" := "secret" ]};
                 log := [EvSubprocess ["docker"; "compose"; "version"]
                           (Some 5%Z) true;
                         EvSubprocess
                           ["docker"; "compose"; "-f";
                            "/srv/hades/docker-compose.yml";
                            "ps"; "--status"; "running"; "db"]
                           (Some 10%Z) false;
                         EvConnect Examples.cfg; EvFetchval "SELECT 1;";
                         EvClose] |}
              "Successfully connected to hades@localhost:5432/hades_db")
    as (check_msg & st1 & config & Hcheck & Hcfg & _).
  { reflexivity. }
  exists check_msg, st1, config. split; [exact Hcheck|].
  vm_compute in Hcfg. by injection Hcfg as <-.
Defined.

Lemma other_event_connects (ev : event) :
  (∀ config, ev ≠ EvConnect config) → connects_with_credentials ev.
Proof. intros Hev config ->. by destruct (Hev config). Qed.

Lemma connect_event_connects (config : Config) :
  password config ≠ "" → user config ≠ "" →
  connects_with_credentials (EvConnect config).
Proof. by intros ? ? c [= <-]. Qed.

Ltac credentials :=
  repeat (apply List.Forall_cons;
          [first [ by apply connect_event_connects
                 | apply other_event_connects; intros ? ?; discriminate ]|]);
  apply List.Forall_nil.

(** X7.  Neither the stand-alone script nor [test_database_connection]
    attempts a connection with an empty password or an empty user: every
    connection they add to the log is made with a config whose password
    and user are not empty. *)
Theorem no_connection_without_credentials (w : World) (st : state) :
  (∃ evs, log (ConnScript.script w st).2 = log st ++ evs
          ∧ Forall connects_with_credentials evs)
  ∧ (∃ evs, log (DbTest.test_database_connection w st).2 = log st ++ evs
            ∧ Forall connects_with_credentials evs).
Proof.
  split.
  - unfold ConnScript.script.
    assert (∀ (e : exn) (st' : state) (evs : list event),
              log st' = log st ++ evs →
              Forall connects_with_credentials evs →
              ∃ evs', log (run_script (λ _, (Raise e, st')) st).2
                      = log st ++ evs'
                      ∧ Forall connects_with_credentials evs') as Hreport.
    { intros e st' evs Hlog Hevs. unfold run_script.
      destruct (exn_cls e); simpl; rewrite Hlog;
        first [ by exists evs
              | exists (evs ++ [EvTraceback e]); rewrite app_assoc;
                split; [done|]; apply Forall_app; split; [done|];
                credentials ]. }
    unfold run_script in *. rewrite conn_script_main_unfold.
    simpl.
    destruct (Env.run_load_env_file _ _) as [loaded [e|]]; simpl.
    { apply (Hreport e {| environ := loaded; log := log st |} []);
        [by rewrite app_nil_r | constructor]. }
    destruct (Resolver.get_db_config _) as [config|e].
    2:{ apply (Hreport e {| environ := loaded; log := log st |} []);
          [by rewrite app_nil_r | constructor]. }
    destruct (is_empty (password config)) eqn:Hpw.
    { eexists. split; [reflexivity|]. credentials. }
    destruct (is_empty (user config)) eqn:Hu.
    { eexists. split; [reflexivity|]. credentials. }
    apply is_empty_false in Hpw, Hu.
    rewrite conn_script_test_connection_eq. simpl.
    destruct (db_fault w (log st) config) as [e|].
    + destruct (connect_outcome w (log st) config);
        (eexists; split; [reflexivity|]);
        credentials.
    + eexists. split; [reflexivity|].
      credentials.
  - destruct (ensure_container_running_shape w st) as (calls & Hcalls & Hst).
    assert (Forall connects_with_credentials calls) as Hcalls'.
    { eapply Forall_impl; [exact Hcalls|]. intros ev Hev. apply other_event_connects.
      intros config ->. exact Hev. }
    destruct (DbTest.ensure_container_running w st) as [[[ok cmsg]|e] st1]
      eqn:Hcheck; simpl in Hst; subst st1.
    2:{ unfold DbTest.test_database_connection, bind. rewrite Hcheck.
        by exists calls. }
    rewrite (test_database_connection_after_check w _ _ _ _ Hcheck).
    destruct ok; simpl; [|by exists calls].
    destruct (Env.run_load_env_file _ _) as [loaded [e|]]; simpl;
      [by exists calls|].
    destruct (Resolver.get_db_config _) as [config|e]; [|by exists calls].
    destruct (is_empty (password config)) eqn:Hpw; [by exists calls|].
    destruct (is_empty (user config)) eqn:Hu; [by exists calls|].
    apply is_empty_false in Hpw, Hu.
    rewrite db_test_connection_eq. simpl.
    destruct (connect_outcome w _ config).
    { exists (calls ++ [EvConnect config]). rewrite app_assoc.
      split; [done|]. apply Forall_app. split; [done|].
      credentials. }
    assert (Forall connects_with_credentials
              (calls ++ [EvConnect config; EvFetchval "SELECT 1;"; EvClose]))
      as Hall.
    { apply Forall_app. split; [done|].
      credentials. }
    destruct (close_outcome w _);
      [|destruct (fetchval_outcome w _ _)];
      (eexists; split; [by rewrite <- app_assoc | exact Hall]).
Qed.

(** X21.  The two connection tests on the same config, outside world
    and state: whenever the one of the test case reports success, the
    one of the stand-alone script returns true, after the same three
    calls to the database. *)
Theorem checkers_agree_on_success
    (w : World) (config : Config) (st st' : state) (msg : string) :
  DbTest.test_connection w config st = (Ret (true, msg), st') →
  ConnScript.test_connection w config st
  = (Ret true,
     logged st' [EvPrint Stdout
                   ("Connection successful to " +:+ describe config)]).
Proof.
  rewrite db_test_connection_eq, conn_script_test_connection_eq.
  unfold db_fault, logged. simpl.
  destruct (connect_outcome w (log st) config); [done|].
  destruct (close_outcome w _); [done|].
  destruct (fetchval_outcome w _ _) as [v|]; [|done].
  destruct (py_eq_1 v); [|done].
  intros [= <- <-]. simpl. by rewrite <- app_assoc.
Qed.

Lemma checkers_agree_on_success_witness :
  ConnScript.test_connection (Examples.world (PyInt 1)) Examples.cfg
    (Examples.start ∅)
  = (Ret true,
     {| environ := ∅;
        log := [EvConnect Examples.cfg; EvFetchval "SELECT 1;"; EvClose;
                EvPrint Stdout
                  "Connection successful to hades@localhost:5432/hades_db"]
     |}).
Proof.
  apply (checkers_agree_on_success (Examples.world (PyInt 1)) Examples.cfg
           (Examples.start ∅)
           {| environ := ∅;
              log := [EvConnect Examples.cfg; EvFetchval "SELECT 1;";
                      EvClose] |}
           "Successfully connected to hades@localhost:5432/hades_db").
  reflexivity.
Defined.

(** ** More on the Container Controller *)

(** X8.  [run_command] never raises and makes one subprocess call with
    a timeout of 60 seconds: a completed call gives its return code and
    its two outputs; a timeout gives code 1 with [Command timed out]; any
    other exception gives code 1 with the text of the exception. *)
Theorem run_command_converts_faults
    (w : World) (cmd : list string) (st : state) :
  ∃ code out err,
    Compose.run_command w cmd st
    = (Ret (code, out, err), logged st [EvSubprocess cmd (Some 60%Z) false])
    ∧ (∀ c, process_outcome w (log st) cmd = Ret c →
            code = returncode c ∧ out = stdout c ∧ err = stderr c)
    ∧ (∀ e, process_outcome w (log st) cmd = Raise e →
            code = 1%Z ∧ out = ""
            ∧ err = if decide (exn_cls e = TimeoutExpired)
                    then "Command timed out" else exn_text e).
Proof.
  rewrite run_command_outcome. unfold logged.
  destruct (process_outcome w (log st) cmd) as [c|e].
  - eexists _, _, _. split; [reflexivity|]. split; [by intros ? [= <-] | done].
  - destruct (decide (exn_cls e = TimeoutExpired)) as [Ht|Ht];
      (eexists _, _, _; split; [reflexivity|]; split; [done|]);
      intros e' [= <-]; repeat split; by case_decide.
Qed.

Lemma get_compose_command_eq (w : World) (st : state) :
  let call1 := EvSubprocess ["docker"; "compose"; "version"] (Some 60%Z) false in
  let call2 := EvSubprocess ["docker-compose"; "version"] (Some 60%Z) false in
  Compose.get_compose_command w st
  = if probe_ok (process_outcome w (log st) ["docker"; "compose"; "version"])
    then (Ret (Some "docker compose"), logged st [call1])
    else (Ret (if probe_ok (process_outcome w (log st ++ [call1])
                              ["docker-compose"; "version"])
               then Some "docker-compose" else None),
          logged st [call1; call2]).
Proof.
  intros call1 call2. unfold Compose.get_compose_command, bind.
  rewrite run_command_outcome. fold call1.
  destruct (process_outcome w (log st) ["docker"; "compose"; "version"])
    as [c|e]; simpl.
  - destruct (returncode c =? 0)%Z; [done|].
    rewrite run_command_outcome. simpl. fold call2. unfold logged.
    rewrite <- app_assoc. simpl.
    destruct (process_outcome w (log st ++ [call1])
                ["docker-compose"; "version"]) as [c'|e']; simpl.
    + by destruct (returncode c' =? 0)%Z.
    + by destruct (decide _).
  - assert ((if decide (exn_cls e = TimeoutExpired)
             then (1%Z, "", "Command timed out")
             else (1%Z, "", exn_text e)).1.1 = 1%Z) as -> by (by destruct (decide _)).
    simpl. rewrite run_command_outcome. simpl. fold call2. unfold logged.
    rewrite <- app_assoc. simpl.
    destruct (process_outcome w (log st ++ [call1])
                ["docker-compose"; "version"]) as [c'|e']; simpl.
    + by destruct (returncode c' =? 0)%Z.
    + by destruct (decide _).
Qed.

(** X9.  [get_compose_command] prefers [docker compose]: it answers
    [docker compose] when that probe completes with status 0, without
    trying the other form; otherwise it probes [docker-compose] and
    answers it on status 0, and nothing when both probes fail.  It never
    raises. *)
Theorem get_compose_command_order (w : World) (st : state) :
  let call1 := EvSubprocess ["docker"; "compose"; "version"] (Some 60%Z) false in
  let call2 := EvSubprocess ["docker-compose"; "version"] (Some 60%Z) false in
  Compose.get_compose_command w st
  = if probe_ok (process_outcome w (log st) ["docker"; "compose"; "version"])
    then (Ret (Some "docker compose"), logged st [call1])
    else (Ret (if probe_ok (process_outcome w (log st ++ [call1])
                              ["docker-compose"; "version"])
               then Some "docker-compose" else None),
          logged st [call1; call2]).
Proof. apply get_compose_command_eq. Qed.

(** X10.  [test_container_up] and [test_container_down] always return
    a pair; they leave the environment as it is, and all they do to the
    outside is subprocess calls with a timeout of 5 to 60 seconds, and
    sleeping. *)
Theorem container_tests_are_contained (w : World) (st : state) :
  (∃ ok msg evs,
     ContainerUp.test_container_up w st = (Ret (ok, msg), logged st evs)
     ∧ Forall bounded_call evs)
  ∧ (∃ ok msg evs,
       ContainerDown.test_container_down w st = (Ret (ok, msg), logged st evs)
       ∧ Forall bounded_call evs).
Proof.
  split.
  - destruct (test_container_up_returns w st) as ([ok msg] & st' & Hrun).
    destruct (test_container_up_bounded w st) as (He & evs & Hl & Hp).
    rewrite Hrun in He, Hl. simpl in *. exists ok, msg, evs.
    split; [|done]. rewrite Hrun. f_equal. destruct st'. simpl in *.
    unfold logged. by subst.
  - destruct (test_container_down_returns w st) as ([ok msg] & st' & Hrun).
    destruct (test_container_down_bounded w st) as (He & evs & Hl & Hp).
    rewrite Hrun in He, Hl. simpl in *. exists ok, msg, evs.
    split; [|done]. rewrite Hrun. f_equal. destruct st'. simpl in *.
    unfold logged. by subst.
Qed.


(** X11.  [test_container_down] does not look at the return code of
    the last status call: when the stop command returned 0 and the
    status call then fails (a timeout or any other exception), the test
    reports that the container was brought down. *)
Theorem test_container_down_trusts_failed_status
    (w : World) (st st1 : state) (cmd : string) (c : completed) (e : exn) :
  let compose := split_ws cmd ++ ["-f"; compose_file w] in
  let up := EvSubprocess (compose ++ ["up"; "-d"; "db"]) (Some 60%Z) false in
  let stop := EvSubprocess (compose ++ ["stop"; "db"]) (Some 60%Z) false in
  let ps :=
    EvSubprocess (compose ++ ["ps"; "--status"; "running"; "db"])
      (Some 60%Z) false in
  compose_file_exists w = true →
  Compose.get_compose_command w st = (Ret (Some cmd), st1) →
  process_outcome w (log st1 ++ [up; EvSleep 3]) (compose ++ ["stop"; "db"])
  = Ret c →
  returncode c = 0%Z →
  process_outcome w (log st1 ++ [up; EvSleep 3; stop; EvSleep 2])
    (compose ++ ["ps"; "--status"; "running"; "db"]) = Raise e →
  ContainerDown.test_container_down w st
  = (Ret (true, "Container successfully brought down"),
     logged st1 [up; EvSleep 3; stop; EvSleep 2; ps]).
Proof.
  intros compose up stop ps Hfile Hcmd Hstop Hcode Hps.
  subst compose up stop ps. unfold logged.
  repeat rewrite <- app_assoc in Hstop. repeat rewrite <- app_assoc in Hps.
  simpl in Hstop, Hps.
  unfold ContainerDown.test_container_down. rewrite Hfile. simpl.
  unfold bind at 1. rewrite Hcmd.
  unfold bind at 1. rewrite run_command_outcome. simpl.
  unfold bind at 1. unfold sleep at 1, emit. simpl.
  unfold bind at 1. rewrite run_command_outcome. simpl.
  repeat rewrite <- app_assoc. simpl. rewrite Hstop. simpl. rewrite Hcode. simpl.
  unfold bind at 1. unfold sleep at 1, emit. simpl.
  unfold bind at 1. rewrite run_command_outcome. simpl.
  repeat rewrite <- app_assoc. simpl. rewrite Hps.
  by destruct (decide _).
Qed.

Lemma test_container_down_trusts_failed_status_witness :
  ContainerDown.test_container_down MoreExamples.world_status_times_out
    (Examples.start ∅)
  = (Ret (true, "Container successfully brought down"),
     {| environ := ∅;
        log :=
          [EvSubprocess ["docker"; "compose"; "version"] (Some 60%Z) false;
           EvSubprocess
             ["docker"; "compose"; "-f"; "/srv/hades/docker-compose.yml";
              "up"; "-d"; "db"] (Some 60%Z) false;
           EvSleep 3;
           EvSubprocess
             ["docker"; "compose"; "-f"; "/srv/hades/docker-compose.yml";
              "stop"; "db"] (Some 60%Z) false;
           EvSleep 2;
           EvSubprocess
             ["docker"; "compose"; "-f"; "/srv/hades/docker-compose.yml";
              "ps"; "--status"; "running"; "db"] (Some 60%Z) false] |}).
Proof.
  apply (test_container_down_trusts_failed_status
           MoreExamples.world_status_times_out (Examples.start ∅)
           {| environ := ∅;
              log := [EvSubprocess ["docker"; "compose"; "version"]
                        (Some 60%Z) false] |}
           "docker compose"
           {| returncode := 0; stdout := ""; stderr := "" |}
           (Exn TimeoutExpired "timed out after 60 seconds"));
    reflexivity.
Defined.

(** X12.  [test_container_up] reports success only when a compose
    command was found, the start command completed with status 0 and
    the status call after it completed with status 0 and listed [db]. *)
Theorem test_container_up_success
    (w : World) (st st' : state) (msg : string) :
  ContainerUp.test_container_up w st = (Ret (true, msg), st') →
  ∃ cmd st1 started listed,
    let compose := split_ws cmd ++ ["-f"; compose_file w] in
    let stop := EvSubprocess (compose ++ ["stop"; "db"]) (Some 60%Z) false in
    let up := EvSubprocess (compose ++ ["up"; "-d"; "db"]) (Some 60%Z) false in
    Compose.get_compose_command w st = (Ret (Some cmd), st1)
    ∧ process_outcome w (log st1 ++ [stop; EvSleep 2])
        (compose ++ ["up"; "-d"; "db"]) = Ret started
    ∧ returncode started = 0%Z
    ∧ process_outcome w (log st1 ++ [stop; EvSleep 2; up; EvSleep 3])
        (compose ++ ["ps"; "--status"; "running"; "db"]) = Ret listed
    ∧ returncode listed = 0%Z
    ∧ substr_in "db" (stdout listed) = true
    ∧ msg = "Container successfully brought up and is running".
Proof.
  intros Hrun. unfold ContainerUp.test_container_up in Hrun.
  destruct (compose_file_exists w); simpl in Hrun; [|done].
  unfold bind at 1 in Hrun.
  destruct (Compose.get_compose_command w st) as [[[cmd|]|e] st1] eqn:Hcmd;
    [|done..].
  exists cmd, st1.
  unfold bind at 1 in Hrun. rewrite run_command_outcome in Hrun.
  simpl in Hrun.
  unfold bind at 1 in Hrun. unfold sleep at 1, emit in Hrun. simpl in Hrun.
  unfold bind at 1 in Hrun. rewrite run_command_outcome in Hrun.
  simpl in Hrun.
  repeat rewrite <- app_assoc in Hrun. simpl in Hrun.
  destruct (process_outcome w
              (log st1 ++ [EvSubprocess _ (Some 60%Z) false; EvSleep 2]) _)
    as [started|e1] eqn:Hstarted; simpl in Hrun;
    [|by destruct (decide (exn_cls e1 = TimeoutExpired))].
  destruct (returncode started =? 0)%Z eqn:Hup; simpl in Hrun; [|done].
  unfold bind at 1 in Hrun. unfold sleep at 1, emit in Hrun. simpl in Hrun.
  unfold bind at 1 in Hrun. rewrite run_command_outcome in Hrun.
  simpl in Hrun.
  repeat rewrite <- app_assoc in Hrun. simpl in Hrun.
  destruct (process_outcome w
              (log st1 ++ [EvSubprocess _ (Some 60%Z) false; EvSleep 2;
                           EvSubprocess _ (Some 60%Z) false; EvSleep 3]) _)
    as [listed|e2] eqn:Hlisted; simpl in Hrun;
    [|by destruct (decide (exn_cls e2 = TimeoutExpired))].
  destruct (returncode listed =? 0)%Z eqn:Hps; simpl in Hrun; [|done].
  destruct (substr_in "db" (stdout listed)) eqn:Hdb; simpl in Hrun; [|done].
  exists started, listed. apply Z.eqb_eq in Hup, Hps. simpl.
  repeat rewrite <- app_assoc. simpl.
  unfold ret in Hrun. by simplify_eq.
Qed.

Lemma test_container_up_success_witness :
  ∃ cmd st1,
    Compose.get_compose_command (Examples.world (PyInt 1)) (Examples.start ∅)
    = (Ret (Some cmd), st1).
Proof.
  destruct (test_container_up_success (Examples.world (PyInt 1))
              (Examples.start ∅)
              (ContainerUp.test_container_up (Examples.world (PyInt 1))
                 (Examples.start ∅)).2
              "Container successfully brought up and is running")
    as (cmd & st1 & _ & _ & Hcmd & _).
  { vm_compute. reflexivity. }
  by exists cmd, st1.
Defined.

(** X13.  When the faults of the two probes for the compose command are
    among those the probing loop catches, [ensure_container_running]
    always returns a pair; it leaves the environment as it is, and all it
    does to the outside is subprocess calls with a timeout of 5 to 60
    seconds, and sleeping. *)
Theorem ensure_container_running_contained (w : World) :
  (∀ h cmd e, cmd ∈ ["docker compose"; "docker-compose"] →
     process_outcome w h (split_ws cmd ++ ["version"]) = Raise e →
     probe_catches e) →
  ∀ st, ∃ ok msg evs,
    DbTest.ensure_container_running w st = (Ret (ok, msg), logged st evs)
    ∧ Forall bounded_call evs.
Proof.
  intros Hcaught st.
  destruct (ensure_container_running_returns w Hcaught st)
    as ([ok msg] & st' & Hrun).
  destruct (ensure_container_running_shape w st) as (evs & Hp & Hst).
  rewrite Hrun in Hst. simpl in Hst. subst st'.
  by exists ok, msg, evs.
Qed.

Lemma ensure_container_running_contained_witness :
  ∃ ok msg evs,
    DbTest.ensure_container_running MoreExamples.world_without_docker
      (Examples.start ∅)
    = (Ret (ok, msg), logged (Examples.start ∅) evs)
    ∧ Forall bounded_call evs.
Proof.
  apply (ensure_container_running_contained
           MoreExamples.world_without_docker).
  intros h cmd e Hcmd Hraise.
  apply elem_of_cons in Hcmd as [-> | Hcmd].
  - vm_compute in Hraise. injection Hraise as <-.
    right. right. reflexivity.
  - apply list_elem_of_singleton in Hcmd as ->.
    vm_compute in Hraise. injection Hraise as <-.
    right. left. reflexivity.
Defined.

(** X14.  [ensure_container_running] once a compose command is found:
    a status listing with [db] in it ends the function with success and
    nothing is started; otherwise the container is started, a nonzero
    status of the start command is a failure that quotes its error
    output, and success comes after a sleep of 5 seconds; a timeout of
    either call gives [Command timed out] and any other exception a
    failure with its text. *)
Theorem ensure_container_running_after_probe
    (w : World) (st st1 : state) (cmd : string) :
  let compose := split_ws cmd ++ ["-f"; compose_file w] in
  let ps_argv := compose ++ ["ps"; "--status"; "running"; "db"] in
  let up_argv := compose ++ ["up"; "-d"; "db"] in
  let ps := EvSubprocess ps_argv (Some 10%Z) false in
  let up := EvSubprocess up_argv (Some 60%Z) false in
  let failed (e : exn) :=
    if decide (exn_cls e = TimeoutExpired) then "Command timed out"
    else "Error ensuring container is running: " +:+ exn_text e in
  compose_file_exists w = true →
  DbTest.detect_compose w ["docker compose"; "docker-compose"] st
  = (Ret (Some cmd), st1) →
  DbTest.ensure_container_running w st
  = match process_outcome w (log st1) ps_argv with
    | Raise e => (Ret (false, failed e), logged st1 [ps])
    | Ret listed =>
        if substr_in "db" (stdout listed)
        then (Ret (true, "Container is already running"), logged st1 [ps])
        else
          match process_outcome w (log st1 ++ [ps]) up_argv with
          | Raise e => (Ret (false, failed e), logged st1 [ps; up])
          | Ret started =>
              if (returncode started =? 0)%Z
              then (Ret (true, "Container started successfully"),
                    logged st1 [ps; up; EvSleep 5])
              else (Ret (false,
                         "Failed to start container: " +:+ stderr started),
                    logged st1 [ps; up])
          end
    end.
Proof.
  intros compose ps_argv up_argv ps up failed Hfile Hprobe.
  subst compose ps_argv up_argv ps up failed. unfold logged.
  unfold DbTest.ensure_container_running. rewrite Hfile. cbn [negb].
  unfold bind at 1. rewrite Hprobe.
  unfold subprocess_run. run_monad.
  repeat rewrite <- app_assoc. simpl.
  destruct (process_outcome w (log st1) _) as [listed|e] eqn:Hps; simpl.
  2:{ world_faults. by destruct (decide (exn_cls e = TimeoutExpired)). }
  destruct (substr_in "db" (stdout listed)); simpl; [done|].
  destruct (process_outcome w (log st1 ++ [_]) _) as [started|e] eqn:Hup;
    simpl.
  2:{ world_faults. destruct (decide (exn_cls e = TimeoutExpired)); simpl;
        by repeat rewrite <- app_assoc. }
  destruct (returncode started =? 0)%Z; simpl;
    by repeat rewrite <- app_assoc.
Qed.

Lemma ensure_container_running_after_probe_witness :
  DbTest.ensure_container_running (Examples.world (PyInt 1)) (Examples.start ∅)
  = (Ret (true, "Container is already running"),
     {| environ := ∅;
        log := [EvSubprocess ["docker"; "compose"; "version"] (Some 5%Z) true;
                EvSubprocess
                  ["docker"; "compose"; "-f"; "/srv/hades/docker-compose.yml";
                   "ps"; "--status"; "running"; "db"] (Some 10%Z) false] |}).
Proof.
  apply (ensure_container_running_after_probe (Examples.world (PyInt 1))
           (Examples.start ∅)
           {| environ := ∅;
              log := [EvSubprocess ["docker"; "compose"; "version"]
                        (Some 5%Z) true] |}
           "docker compose");
    reflexivity.
Defined.



(** ** More on the Test Runner *)

Section Names.

Lemma split_last_dot_app (s before from_dot : string) :
  Runner.split_last_dot s = Some (before, from_dot) →
  s = before +:+ from_dot.
Proof.
  revert before from_dot. induction s as [|c s IH]; intros before from_dot;
    [done|].
  simpl. destruct (Runner.split_last_dot s) as [[b f]|].
  - intros [= <- <-]. by rewrite app_cons, <- (IH b f).
  - destruct (Ascii.eqb c "."); [|done]. by intros [= <- <-].
Qed.

Lemma stem_suffix (name : string) :
  Runner.stem name +:+ Runner.suffix name = name.
Proof.
  unfold Runner.stem, Runner.suffix.
  destruct (Runner.split_last_dot name) as [[before from_dot]|] eqn:Hsplit.
  - destruct (Runner.dot_splits before from_dot).
    + symmetry. by apply split_last_dot_app.
    + clear. induction name as [|c name IH]; [done|].
      by rewrite app_cons, IH.
  - clear. induction name as [|c name IH]; [done|]. by rewrite app_cons, IH.
Qed.

Lemma prefix_test_before (before : string) :
  startswith "test_" (before +:+ ".py") = true →
  startswith "test_" before = true.
Proof.
  assert (∀ s, String.prefix "" s = true) as Hnil by (by intros []).
  unfold startswith.
  destruct before as [|c1 [|c2 [|c3 [|c4 [|c5 rest]]]]];
    rewrite ?app_cons, ?app_nil_l; simpl;
    repeat (destruct (ascii_dec _ _); try done);
    by rewrite ?Hnil.
Qed.

End Names.

(** X15.  The name of a Test Result: for every file discovery keeps,
    the file name is the stem followed by [.py], and the stem itself
    starts with [test_]. *)
Theorem test_name_of_discovered_file (tf : Runner.test_file) :
  is_test_case tf →
  Runner.file_name tf = Runner.stem (Runner.file_name tf) +:+ ".py"
  ∧ startswith "test_" (Runner.stem (Runner.file_name tf)) = true.
Proof.
  intros (_ & Hsuffix & Hprefix).
  pose proof (stem_suffix (Runner.file_name tf)) as Hname.
  rewrite Hsuffix in Hname. split; [done|].
  apply prefix_test_before. by rewrite Hname.
Qed.

Lemma test_name_of_discovered_file_witness :
  Runner.file_name Examples.passing_file
  = Runner.stem (Runner.file_name Examples.passing_file) +:+ ".py"
  ∧ startswith "test_"
      (Runner.stem (Runner.file_name Examples.passing_file)) = true.
Proof.
  apply (test_name_of_discovered_file Examples.passing_file).
  repeat split; reflexivity.
Defined.

(** X16.  A file named by the convention: when [test_] occurs in the
    stem at its start only and the module has an attribute named like the
    stem, that attribute is what the runner calls, and the result of
    the file is what the call gives: the pair it returns, or a failure
    with the text of the exception of the call or of the unpacking, when
    that is an instance of [Exception]; any other exception leaves
    [run_test_case]. *)
Theorem run_test_case_by_convention
    (dir : string) (tf : Runner.test_file) (st st1 : state)
    (module : gmap string Runner.attr) (test_func : Runner.attr)
    (rest : string) :
  let name := Runner.stem (Runner.file_name tf) in
  name = "test_" +:+ rest →
  substr_in "test_" rest = false →
  Runner.file_has_spec tf = true →
  Runner.file_exec tf st = (Ret module, st1) →
  module !! name = Some test_func →
  Runner.find_test_func module name = Some test_func
  ∧ Runner.run_test_case dir tf st
    = match Runner.call test_func st1 with
      | (Ret (Runner.RetPair success message), st2) =>
          (Ret (name, success, message), st2)
      | (Ret (Runner.RetOther e), st2)
      | (Raise e, st2) =>
          if is_exception e
          then (Ret (name, false, "Test execution error: " +:+ exn_text e),
                st2)
          else (Raise e, st2)
      end.
Proof.
  intros name Hname Hrest Hspec Hexec Hattr.
  assert (Runner.find_test_func module name = Some test_func) as Hfind.
  { apply find_test_func_exact.
    rewrite Hname, (derived_name_is_stem rest Hrest). by rewrite <- Hname. }
  split; [done|].
  rewrite run_test_case_eq. simpl. fold name.
  by rewrite Hspec, Hexec, Hfind.
Qed.

Lemma run_test_case_by_convention_witness :
  Runner.run_test_case Examples.test_cases_dir Examples.passing_file
    (Examples.start ∅)
  = (Ret ("test_python_version", true, "ok"), Examples.start ∅).
Proof.
  apply (run_test_case_by_convention Examples.test_cases_dir
           Examples.passing_file (Examples.start ∅) (Examples.start ∅)
           {[ "test_python_version" :=
                Runner.Callable (ret (Runner.RetPair true "ok")) ]}
           (Runner.Callable (ret (Runner.RetPair true "ok")))
           "python_version");
    reflexivity.
Defined.

(** X17.  An attribute with the derived name that cannot be called is
    not skipped: the runner does not fall back to another test function
    of the module, and the result of the file is the failure of the
    call. *)
Theorem run_test_case_not_callable
    (dir : string) (tf : Runner.test_file) (st st1 : state)
    (module : gmap string Runner.attr) (type_name : string) :
  let name := Runner.stem (Runner.file_name tf) in
  Runner.file_has_spec tf = true →
  Runner.file_exec tf st = (Ret module, st1) →
  module !! ("test_" +:+ remove_test name)
  = Some (Runner.NotCallable type_name) →
  Runner.run_test_case dir tf st
  = (Ret (name, false,
          "Test execution error: '" +:+ type_name
          +:+ "' object is not callable"), st1).
Proof.
  intros name Hspec Hexec Hattr.
  rewrite run_test_case_eq. simpl. fold name.
  by rewrite Hspec, Hexec, (find_test_func_exact _ _ _ Hattr).
Qed.

Lemma run_test_case_not_callable_witness :
  Runner.run_test_case Examples.test_cases_dir MoreExamples.shadowed_file
    (Examples.start ∅)
  = (Ret ("test_config", false,
          "Test execution error: 'dict' object is not callable"),
     Examples.start ∅).
Proof.
  apply (run_test_case_not_callable Examples.test_cases_dir
           MoreExamples.shadowed_file (Examples.start ∅) (Examples.start ∅)
           {[ "test_config" := Runner.NotCallable "dict";
              "test_other" :=
                Runner.Callable (ret (Runner.RetPair true "ok")) ]}
           "dict");
    reflexivity.
Defined.

Section Fallback.
Implicit Types (module : gmap string Runner.attr) (names : list string).

(** A callable test function of the module. *)
Let candidate module (name : string) : Prop :=
  ∃ a, module !! name = Some a
       ∧ startswith "test_" name = true ∧ Runner.callable a = true.

Lemma first_test_callable_some module names (f : Runner.attr) :
  Runner.first_test_callable module names = Some f →
  ∃ before name after,
    names = before ++ name :: after
    ∧ module !! name = Some f
    ∧ startswith "test_" name = true ∧ Runner.callable f = true
    ∧ ∀ other, other ∈ before → ¬ candidate module other.
Proof.
  induction names as [|n names IH]; [done|]. simpl.
  destruct (module !! n) as [a|] eqn:Hn.
  - destruct (startswith "test_" n && Runner.callable a) eqn:Hb.
    + intros [= <-]. apply andb_true_iff in Hb as [Hs Hc].
      exists [], n, names. repeat split; try done.
      by intros other ?%elem_of_nil.
    + intros (before & name & after & -> & Hrest)%IH.
      exists (n :: before), name, after. split; [done|].
      destruct Hrest as (? & ? & ? & Hbefore). repeat split; try done.
      intros other [-> | Hin]%elem_of_cons; [|by apply Hbefore].
      intros (a' & Ha' & Hs & Hc). simplify_eq. by rewrite Hs, Hc in Hb.
  - intros (before & name & after & -> & Hrest)%IH.
    exists (n :: before), name, after. split; [done|].
    destruct Hrest as (? & ? & ? & Hbefore). repeat split; try done.
    intros other [-> | Hin]%elem_of_cons; [|by apply Hbefore].
    intros (a' & Ha' & _). congruence.
Qed.

Lemma dir_sorted module : StronglySorted String.le (Runner.dir module).
Proof. unfold Runner.dir. apply StronglySorted_merge_sort; apply _. Qed.

Lemma elem_of_dir module (name : string) :
  name ∈ Runner.dir module ↔ is_Some (module !! name).
Proof.
  unfold Runner.dir. rewrite merge_sort_Permutation.
  change (map fst (map_to_list module)) with ((map_to_list module).*1).
  rewrite list_elem_of_fmap. split.
  - intros ([k a] & -> & Hin). apply elem_of_map_to_list in Hin. by exists a.
  - intros [a Ha]. exists (name, a). split; [done|].
    by apply elem_of_map_to_list.
Qed.

Lemma fallback_least module (f : Runner.attr) :
  Runner.first_test_callable module (Runner.dir module) = Some f →
  ∃ name, module !! name = Some f
          ∧ startswith "test_" name = true ∧ Runner.callable f = true
          ∧ ∀ other, candidate module other → String.le name other.
Proof.
  intros (before & name & after & Hdir & Hf & Hs & Hc & Hbefore)
    %first_test_callable_some.
  exists name. repeat split; try done.
  intros other Hother.
  assert (other ∈ Runner.dir module) as Hin.
  { apply elem_of_dir. destruct Hother as (a & -> & _). by eexists. }
  pose proof (dir_sorted module) as Hsorted.
  rewrite Hdir in Hin, Hsorted.
  apply elem_of_app in Hin as [Hin | Hin]; [by destruct (Hbefore other Hin)|].
  apply StronglySorted_app_1_r, StronglySorted_cons in Hsorted as [Hle _].
  apply elem_of_cons in Hin as [-> | Hin]; [done|].
  by eapply Forall_forall in Hle.
Qed.

End Fallback.

(** X18.  The fallback of the runner: when the module has no attribute
    with the derived name, the function that is called is the callable
    whose name starts with [test_] and comes first in the order of the
    names, whatever the order in which the module defines them. *)
Theorem fallback_is_first_by_name
    (module : gmap string Runner.attr) (test_name : string)
    (test_func : Runner.attr) :
  module !! ("test_" +:+ remove_test test_name) = None →
  Runner.find_test_func module test_name = Some test_func →
  ∃ name,
    module !! name = Some test_func
    ∧ startswith "test_" name = true ∧ Runner.callable test_func = true
    ∧ ∀ other a,
        module !! other = Some a → startswith "test_" other = true →
        Runner.callable a = true → String.le name other.
Proof.
  intros Hnone. rewrite (find_test_func_fallback _ _ Hnone).
  intros (name & Hf & Hs & Hc & Hleast)%fallback_least.
  exists name. repeat split; try done.
  intros other a Ha Hso Hca. apply Hleast. by exists a.
Qed.

Lemma fallback_is_first_by_name_witness :
  ∃ name,
    ({[ "test_a_test_b" := Examples.named_after_file;
        "test_a_helper" := Examples.helper ]} : gmap string Runner.attr)
      !! name = Some Examples.helper
    ∧ String.le name "test_a_test_b".
Proof.
  destruct (fallback_is_first_by_name
              {[ "test_a_test_b" := Examples.named_after_file;
                 "test_a_helper" := Examples.helper ]}
              "test_a_test_b" Examples.helper)
    as (name & Hname & _ & _ & Hleast); [reflexivity..|].
  exists name. split; [exact Hname|].
  apply (Hleast "test_a_test_b" Examples.named_after_file); reflexivity.
Defined.

Section ListingOrder.

Lemma same_name_same_file (entries : list Runner.test_file)
    (a b : Runner.test_file) :
  NoDup (Runner.file_name <$> entries) →
  a ∈ entries → b ∈ entries →
  Runner.file_name a = Runner.file_name b → a = b.
Proof.
  induction entries as [|x entries IH]; [by intros _ ?%elem_of_nil|].
  rewrite fmap_cons, NoDup_cons.
  intros [Hx Hnodup] [-> | Ha]%elem_of_cons [-> | Hb]%elem_of_cons Hname;
    [done| | |by apply IH].
  - destruct Hx. rewrite Hname. by apply list_elem_of_fmap_2.
  - destruct Hx. rewrite <- Hname. by apply list_elem_of_fmap_2.
Qed.

End ListingOrder.

(** X19.  What discovery returns does not depend on the order in which
    the directory lists its entries (the names of the entries of a
    directory are distinct). *)
Theorem discovery_ignores_listing_order
    (entries entries' : list Runner.test_file) :
  NoDup (Runner.file_name <$> entries) →
  entries ≡ₚ entries' →
  Runner.discover_test_cases (Some entries)
  = Runner.discover_test_cases (Some entries').
Proof.
  intros Hnodup Hperm.
  apply (StronglySorted_unique_strong Runner.name_le).
  - intros a b [Ha _]%discover_elem_of [Hb _]%discover_elem_of Hab Hba.
    rewrite <- Hperm in Hb.
    apply (same_name_same_file entries); [done..|].
    unfold Runner.name_le in *. by apply (anti_symm String.le).
  - apply discover_sorted.
  - apply discover_sorted.
  - rewrite !discover_permutation. by rewrite Hperm.
Qed.

Lemma discovery_ignores_listing_order_witness :
  Runner.discover_test_cases
    (Some [Examples.passing_file; Examples.readme_file; Examples.broken_file])
  = Runner.discover_test_cases
      (Some [Examples.broken_file; Examples.readme_file;
             Examples.passing_file]).
Proof.
  apply discovery_ignores_listing_order.
  - apply (bool_decide_unpack _). vm_compute. exact I.
  - change [Examples.broken_file; Examples.readme_file; Examples.passing_file]
      with (reverse [Examples.passing_file; Examples.readme_file;
                     Examples.broken_file]).
    symmetry. apply reverse_Permutation.
Defined.
